(** * KZG frame and low-degree verification (encoding/kzgrs/verifier)

    A shallow embedding of [verifier.go]: the per-parameter verifier cache,
    the low-degree proof check, the multi-reveal (frame) proof check and the
    decode glue.  Code of the packages [bn254], [kzg], [rs], [kzgrs] and
    [encoding] is consumed through two interfaces ([BlsPrimitives] and
    [Collaborators]); a reference instance in the exponent representation of
    a bilinear group makes every definition executable. *)

From Stdlib Require Import ZArith List Lia Bool.
From stdpp Require Import base decidable option list gmap strings.

(** ** Go values *)

(** [uint64] is a [Z] in [0, 2^64); arithmetic wraps. *)
Definition uint64_wrap (z : Z) : Z := (z mod 2 ^ 64)%Z.

Definition uint64_sub (a b : Z) : Z := uint64_wrap (a - b).
Definition uint64_of_len {A} (l : list A) : Z := uint64_wrap (Z.of_nat (length l)).

(** [error] values are compared by their message. *)
Definition error : Type := string.

(** Go's [(T, error)] results. *)
Inductive result (T : Type) : Type :=
| Ok (t : T)
| Err (e : error).
Arguments Ok {T} t.
Arguments Err {T} e.

(** Where a run-time panic is raised. *)
Inductive site : Type :=
| at_indices                 (* indices[ind] in VerifyFrames *)
| at_ExpandedRootsOfUnity    (* v.Ks.ExpandedRootsOfUnity[j] *)
| at_Srs_G1.                 (* ks.Srs.G1[:len(f.Coeffs)] *)

Inductive panic : Type :=
| IndexOutOfRange (s : site) (i : Z) (len : nat)
| SliceBoundsOutOfRange (s : site) (hi : nat) (cap : nat)
| NilDereference.

(** A computation either returns or panics. *)
Inductive outcome (A : Type) : Type :=
| Ret (a : A)
| Panic (p : panic).
Arguments Ret {A} a.
Arguments Panic {A} p.

#[global] Instance site_eq_dec : EqDecision site.
Proof. solve_decision. Defined.
#[global] Instance panic_eq_dec : EqDecision panic.
Proof. solve_decision. Defined.
#[global] Instance result_eq_dec {T} `{EqDecision T} : EqDecision (result T).
Proof. solve_decision. Defined.
#[global] Instance outcome_eq_dec {A} `{EqDecision A} : EqDecision (outcome A).
Proof. solve_decision. Defined.

Definition outcome_bind {A B} (m : outcome A) (k : A -> outcome B) : outcome B :=
  match m with
  | Ret a => k a
  | Panic p => Panic p
  end.

(** [s[i]] with a uint64 index: panics out of range. *)
Definition index_at {A} (w : site) (s : list A) (i : Z) : outcome A :=
  match s !! Z.to_nat i with
  | Some a => Ret a
  | None => Panic (IndexOutOfRange w i (length s))
  end.

(** [s[:hi]]: panics when [hi] exceeds the capacity.  Slices are modelled
    with capacity equal to their length. *)
Definition slice_to {A} (w : site) (s : list A) (hi : nat) : outcome (list A) :=
  if decide (hi <= length s)
  then Ret (take hi s)
  else Panic (SliceBoundsOutOfRange w hi (length s)).

(** [for i := 0; i < n; i++ { body }] over a loop state. *)
Fixpoint for_range {S : Type} (n : nat) (body : S -> S) (s : S) : S :=
  match n with
  | O => s
  | Datatypes.S k => for_range k body (body s)
  end.

(** ** Pairing and field primitives (package [bn254]) *)

Class BlsPrimitives : Type := {
  Fr : Type;
  G1Point : Type;
  G2Point : Type;
  GT : Type;
  GT_eq_dec :: EqDecision GT;
  ZERO : Fr;
  ONE : Fr;
  MulModFr : Fr -> Fr -> Fr;
  GenG1 : G1Point;
  GenG2 : G2Point;
  MulG2 : G2Point -> Fr -> G2Point;
  SubG1 : G1Point -> G1Point -> G1Point;
  SubG2 : G2Point -> G2Point -> G2Point;
  LinCombG1 : list G1Point -> list Fr -> G1Point;
  pairing : G1Point -> G2Point -> GT
}.

(** Multiplication in the scalar field is commutative. *)
Class BlsLaws (B : BlsPrimitives) : Prop := {
  MulModFr_comm : forall a b : Fr, MulModFr a b = MulModFr b a
}.

Section Primitives.
Context {B : BlsPrimitives}.

(** Modelled from the spec: [bn254.PairingsVerify] is not part of the file;
    the pairing primitive interface describes it as the 4-point check
    [e(A,B) == e(C,D)]. *)
Definition PairingsVerify (a1 : G1Point) (a2 : G2Point) (b1 : G1Point) (b2 : G2Point) : bool :=
  bool_decide (pairing a1 a2 = pairing b1 b2).

(** The n-th power in the scalar field. *)
Fixpoint Fr_pow (x : Fr) (n : nat) : Fr :=
  match n with
  | O => ONE
  | Datatypes.S k => MulModFr x (Fr_pow x k)
  end.

(** ** Data model (packages [encoding], [kzg]) *)

Record Frame : Type := {
  Proof : G1Point;
  Coeffs : list Fr
}.

Record SRS : Type := {
  G1 : list G1Point;
  G2 : list G2Point
}.

Record FFTSettings : Type := {
  ExpandedRootsOfUnity : list Fr
}.

(** [ks_FFTSettings] is the embedded [*FFTSettings], [ks_Srs] the field
    [Srs]. *)
Record KZGSettings : Type := {
  ks_FFTSettings : FFTSettings;
  ks_Srs : SRS
}.

(** ** [VerifyFrame] (free function) *)

(** The variables of the exponentiation loop; [muls] counts the calls of
    [MulModFr]. *)
Record pow_state : Type := {
  xPow : Fr;
  tmp : Fr;
  muls : nat
}.

Definition pow_init : pow_state :=
  {| xPow := ONE; tmp := ZERO; muls := 0 |}.

Definition pow_body (x : Fr) (st : pow_state) : pow_state :=
  let tmp' := MulModFr (xPow st) x in
  {| xPow := tmp'; tmp := tmp'; muls := Datatypes.S (muls st) |}.

Definition pow_loop (x : Fr) (n : nat) : pow_state :=
  for_range n (pow_body x) pow_init.

Definition VerifyFrame (f : Frame) (ks : KZGSettings) (commitment : G1Point)
    (x : Fr) (g2Atn : G2Point) : outcome bool :=
  let xPow := xPow (pow_loop x (length (Coeffs f))) in
  let xn2 := MulG2 GenG2 xPow in
  let xnMinusYn := SubG2 g2Atn xn2 in
  outcome_bind (slice_to at_Srs_G1 (G1 (ks_Srs ks)) (length (Coeffs f))) (fun pts =>
  let is1 := LinCombG1 pts (Coeffs f) in
  let commitMinusInterpolation := SubG1 commitment is1 in
  Ret (PairingsVerify commitMinusInterpolation GenG2 (Proof f) xnMinusYn)).

(** ** Configuration and parameters (packages [kzgrs], [encoding]) *)

Record KzgConfig : Type := {
  G1Path : string;
  G2Path : string;
  G2PowerOf2Path : string;
  NumWorker : Z;
  SRSOrder : Z;
  SRSNumberToLoad : Z;
  Verbose : bool
}.

Record EncodingParams : Type := {
  NumChunks : Z;
  ChunkLength : Z
}.

#[global] Instance EncodingParams_eq_dec : EqDecision EncodingParams.
Proof. solve_decision. Defined.

#[global] Instance EncodingParams_countable : Countable EncodingParams :=
  inj_countable' (fun p => (NumChunks p, ChunkLength p))
    (fun q => {| NumChunks := q.1; ChunkLength := q.2 |})
    (fun p => match p with Build_EncodingParams _ _ => eq_refl end).

Record BlobCommitments : Type := {
  Commitment : G1Point;
  LengthCommitment : G2Point;
  LengthProof : G2Point;
  Length : Z
}.

(** [rs.Frame]: a chunk without its proof. *)
Record rs_Frame : Type := {
  rs_Coeffs : list Fr
}.

End Primitives.

(** ** External collaborators

    Functions of the packages [encoding], [kzg], [rs] and [kzgrs] that
    [verifier.go] calls.  File reads are functions of their arguments: the
    SRS files do not change while a verifier lives.  [log2_uint8] stands for
    [uint8(math.Log2(float64(n)))]. *)

Class Collaborators (B : BlsPrimitives) : Type := {
  Encoder : Type;
  Encoder_EncodingParams : Encoder -> EncodingParams;
  Validate : EncodingParams -> option error;
  NumEvaluations : EncodingParams -> Z;
  log2_uint8 : Z -> Z;
  NewFFTSettings : Z -> FFTSettings;
  NewKZGSettings : FFTSettings -> SRS -> result KZGSettings;
  NewSrs : list G1Point -> list G2Point -> result SRS;
  NewEncoder : EncodingParams -> bool -> result Encoder;
  GetLeadingCosetIndex : Z -> Z -> result Z;
  rs_reconstruct : Encoder -> list rs_Frame -> list Z -> result (list Byte.byte);
  ReadG1Point : Z -> KzgConfig -> result G1Point;
  ReadG2Point : Z -> KzgConfig -> result G2Point;
  ReadG1Points : string -> Z -> Z -> result (list G1Point);
  ReadG2Points : string -> Z -> Z -> result (list G2Point);
  ReadG2PointSection : string -> Z -> Z -> Z -> result (list G2Point)
}.

(** ** The verifier and its heap *)

Section Verifier.
Context {B : BlsPrimitives} {C : Collaborators B}.

(** [*ParametrizedVerifier] values are addresses in [heap]. *)
Definition loc : Type := nat.

(** The embedded [*kzgrs.KzgConfig] and [*rs.Encoder] are the fields
    [pv_KzgConfig] and [pv_Encoder]; [Srs] is [pv_Srs]. *)
Record ParametrizedVerifier : Type := {
  pv_KzgConfig : KzgConfig;
  pv_Srs : SRS;
  pv_Encoder : Encoder;
  Fs : FFTSettings;
  Ks : KZGSettings
}.

(** The embedded [*kzgrs.KzgConfig] is the field [v_KzgConfig].  [mu] is
    left out: calls run one at a time. *)
Record Verifier : Type := {
  v_KzgConfig : KzgConfig;
  Srs : SRS;
  G2Trailing : list G2Point;
  LoadG2Points : bool;
  ParametrizedVerifiers : gmap EncodingParams loc
}.

Record World : Type := {
  g : Verifier;
  heap : list ParametrizedVerifier
}.

(** State and panic monad of the methods. *)
Definition M (A : Type) : Type := World -> outcome A * World.

Definition M_ret {A} (a : A) : M A := fun w => (Ret a, w).

Definition M_bind {A B'} (m : M A) (k : A -> M B') : M B' :=
  fun w =>
    match m w with
    | (Ret a, w') => k a w'
    | (Panic p, w') => (Panic p, w')
    end.

Definition lift {A} (o : outcome A) : M A := fun w => (o, w).

Definition get_g : M Verifier := fun w => (Ret (g w), w).

Definition deref (v : loc) : M ParametrizedVerifier :=
  fun w =>
    match heap w !! v with
    | Some pv => (Ret pv, w)
    | None => (Panic NilDereference, w)
    end.

(** [&ParametrizedVerifier{...}]: a fresh address. *)
Definition alloc (pv : ParametrizedVerifier) : M loc :=
  fun w => (Ret (length (heap w)), {| g := g w; heap := heap w ++ [pv] |}).

(** [g.ParametrizedVerifiers[params] = ver] *)
Definition cache_store (params : EncodingParams) (ver : loc) : M unit :=
  fun w =>
    (Ret tt,
     {| g := {| v_KzgConfig := v_KzgConfig (g w);
                Srs := Srs (g w);
                G2Trailing := G2Trailing (g w);
                LoadG2Points := LoadG2Points (g w);
                ParametrizedVerifiers := <[params := ver]> (ParametrizedVerifiers (g w)) |};
        heap := heap w |}).

End Verifier.

Notation "'let*' x := m 'in' k" := (M_bind m (fun x => k))
  (at level 10, x name, m at level 100, k at level 200, only parsing).

Section Methods.
Context {B : BlsPrimitives} {C : Collaborators B}.

Definition NewVerifier (config : KzgConfig) (loadG2Points : bool) : result Verifier :=
  if decide (SRSNumberToLoad config > SRSOrder config)%Z
  then Err "SRSOrder is less than srsNumberToLoad"
  else
    match ReadG1Points (G1Path config) (SRSNumberToLoad config) (NumWorker config) with
    | Err err => Err err
    | Ok s1 =>
      let loaded :=
        if loadG2Points then
          if decide (String.length (G2Path config) = 0)
          then Err "G2Path is empty. However, object needs to load G2Points"
          else
            match ReadG2Points (G2Path config) (SRSNumberToLoad config) (NumWorker config) with
            | Err err => Err err
            | Ok s2 =>
              match ReadG2PointSection (G2Path config)
                      (uint64_sub (SRSOrder config) (SRSNumberToLoad config))
                      (SRSOrder config) (NumWorker config) with
              | Err err => Err err
              | Ok g2Trailing => Ok (s2, g2Trailing)
              end
            end
        else
          if decide (String.length (G2PowerOf2Path config) = 0)
          then Err "G2PowerOf2Path is empty. However, object needs to load G2Points"
          else Ok ([], [])
      in
      match loaded with
      | Err err => Err err
      | Ok (s2, g2Trailing) =>
        match NewSrs s1 s2 with
        | Err err => Err err
        | Ok srs =>
          Ok {| v_KzgConfig := config;
                Srs := srs;
                G2Trailing := g2Trailing;
                ParametrizedVerifiers := ∅;
                LoadG2Points := loadG2Points |}
        end
      end
    end.

Definition newKzgVerifier (params : EncodingParams) : M (result loc) :=
  let* g := get_g in
  match Validate params with
  | Some err => M_ret (Err err)
  | None =>
    let n := log2_uint8 (NumEvaluations params) in
    let fs := NewFFTSettings n in
    match NewKZGSettings fs (Srs g) with
    | Err err => M_ret (Err err)
    | Ok ks =>
      match NewEncoder params (Verbose (v_KzgConfig g)) with
      | Err err => M_ret (Err err)
      | Ok encoder =>
        let* ver := alloc {| pv_KzgConfig := v_KzgConfig g;
                       pv_Srs := Srs g;
                       pv_Encoder := encoder;
                       Fs := fs;
                       Ks := ks |} in
        M_ret (Ok ver)
      end
    end
  end.

Definition GetKzgVerifier (params : EncodingParams) : M (result loc) :=
  match Validate params with
  | Some err => M_ret (Err err)
  | None =>
    let* g := get_g in
    match ParametrizedVerifiers g !! params with
    | Some ver => M_ret (Ok ver)
    | None =>
      let* r := newKzgVerifier params in
      match r with
      | Ok ver => let* _ := cache_store params ver in M_ret (Ok ver)
      | Err err => M_ret (Err err)
      end
    end
  end.

Definition NewKzgVerifier (params : EncodingParams) : M (result loc) :=
  newKzgVerifier params.

Definition VerifyLowDegreeProof (lengthCommit proof : G2Point) (g1Challenge : G1Point) : bool :=
  PairingsVerify g1Challenge lengthCommit GenG1 proof.

Definition VerifyCommit (lengthCommit lowDegreeProof : G2Point) (length : Z) : M (option error) :=
  let* v := get_g in
  match ReadG1Point (uint64_sub (SRSOrder (v_KzgConfig v)) length) (v_KzgConfig v) with
  | Err err => M_ret (Some err)
  | Ok g1Challenge =>
    if negb (VerifyLowDegreeProof lengthCommit lowDegreeProof g1Challenge)
    then M_ret (Some "low degree proof fails"%string)
    else M_ret None
  end.

Definition VerifyBlobLength (commitments : BlobCommitments) : M (option error) :=
  VerifyCommit (LengthCommitment commitments) (LengthProof commitments)
    (uint64_wrap (Length commitments)).

(** The method [VerifyFrame] of [ParametrizedVerifier]. *)
Definition PV_VerifyFrame (v : loc) (commit : G1Point) (f : Frame) (index : Z) : M (option error) :=
  let* pv := deref v in
  match GetLeadingCosetIndex (uint64_wrap index)
          (NumChunks (Encoder_EncodingParams (pv_Encoder pv))) with
  | Err err => M_ret (Some err)
  | Ok j =>
    match ReadG2Point (uint64_of_len (Coeffs f)) (pv_KzgConfig pv) with
    | Err err => M_ret (Some err)
    | Ok g2Atn =>
      let* x := lift (index_at at_ExpandedRootsOfUnity
                        (ExpandedRootsOfUnity (ks_FFTSettings (Ks pv))) j) in
      let* ok := lift (VerifyFrame f (Ks pv) commit x g2Atn) in
      if negb ok
      then M_ret (Some "multireveal proof fails"%string)
      else M_ret None
    end
  end.

(** The body of [for ind := range frames], from position [ind] on; [rest]
    holds [frames[ind:]]. *)
Fixpoint VerifyFrames_from (verifier : loc) (commit : G1Point) (indices : list Z)
    (ind : nat) (rest : list Frame) : M (option error) :=
  match rest with
  | [] => M_ret None
  | f :: rest' =>
    let* i := lift (index_at at_indices indices (Z.of_nat ind)) in
    let* err := PV_VerifyFrame verifier commit f (uint64_wrap i) in
    match err with
    | Some e => M_ret (Some e)
    | None => VerifyFrames_from verifier commit indices (Datatypes.S ind) rest'
    end
  end.

Definition VerifyFrames (frames : list Frame) (indices : list Z)
    (commitments : BlobCommitments) (params : EncodingParams) : M (option error) :=
  let* r := GetKzgVerifier params in
  match r with
  | Err err => M_ret (Some err)
  | Ok verifier =>
    VerifyFrames_from verifier (Commitment commitments) indices 0 frames
  end.

(** [res := make([]T, n); for i, d := range src { res[i] = f d }] *)
Definition make {A} (n : nat) (zero : A) : list A := replicate n zero.

Fixpoint assign_range {A T} (f : A -> T) (i : nat) (src : list A) (res : list T) : list T :=
  match src with
  | [] => res
  | d :: src' => assign_range f (Datatypes.S i) src' (<[i := f d]> res)
  end.

Definition toUint64Array (chunkIndices : list Z) : list Z :=
  assign_range uint64_wrap 0 chunkIndices (make (length chunkIndices) 0%Z).

(** Modelled from the spec: the method [Decode] of [rs.Encoder] is not part of the file;
    the decode path is described as the erasure coder's reconstruction
    followed by truncation of the result to [maxInputSize] bytes. *)
Definition Encoder_Decode (enc : Encoder) (frames : list rs_Frame) (indices : list Z)
    (maxInputSize : Z) : result (list Byte.byte) :=
  match rs_reconstruct enc frames indices with
  | Ok data => Ok (take (Z.to_nat maxInputSize) data)
  | Err err => Err err
  end.

Definition Decode (chunks : list Frame) (indices : list Z) (params : EncodingParams)
    (maxInputSize : Z) : M (result (list Byte.byte)) :=
  let frames :=
    assign_range (fun c => {| rs_Coeffs := Coeffs c |}) 0 chunks
      (make (length chunks) {| rs_Coeffs := [] |}) in
  let* r := GetKzgVerifier params in
  match r with
  | Err err => M_ret (Err err)
  | Ok encoder =>
    let* pv := deref encoder in
    M_ret (Encoder_Decode (pv_Encoder pv) frames (toUint64Array indices) maxInputSize)
  end.

(** ** Calls of the public interface and the states they reach *)

Inductive call : Type :=
| CallGetKzgVerifier (params : EncodingParams)
| CallNewKzgVerifier (params : EncodingParams)
| CallVerifyBlobLength (commitments : BlobCommitments)
| CallVerifyCommit (lengthCommit lowDegreeProof : G2Point) (length : Z)
| CallVerifyFrames (frames : list Frame) (indices : list Z)
    (commitments : BlobCommitments) (params : EncodingParams)
| CallVerifyFrame (v : loc) (commit : G1Point) (f : Frame) (index : Z)
| CallDecode (chunks : list Frame) (indices : list Z) (params : EncodingParams)
    (maxInputSize : Z).

Definition after (c : call) (w : World) : World :=
  match c with
  | CallGetKzgVerifier params => (GetKzgVerifier params w).2
  | CallNewKzgVerifier params => (NewKzgVerifier params w).2
  | CallVerifyBlobLength commitments => (VerifyBlobLength commitments w).2
  | CallVerifyCommit lc p n => (VerifyCommit lc p n w).2
  | CallVerifyFrames frames indices commitments params =>
      (VerifyFrames frames indices commitments params w).2
  | CallVerifyFrame v commit f index => (PV_VerifyFrame v commit f index w).2
  | CallDecode chunks indices params maxInputSize =>
      (Decode chunks indices params maxInputSize w).2
  end.

(** The world right after [NewVerifier], then any sequence of calls. *)
Inductive reachable : World -> Prop :=
| reachable_new config loadG2Points v :
    NewVerifier config loadG2Points = Ok v ->
    reachable {| g := v; heap := [] |}
| reachable_call c w :
    reachable w -> reachable (after c w).

End Methods.

(** ** Reference instance

    A bilinear group of prime order [r] in the exponent representation: a
    point is its discrete logarithm to the generator, and the pairing
    multiplies exponents.  The SRS holds the powers of [tau].  The instance
    serves to run the verifier on concrete inputs; an honest prover for it
    is included. *)

Module Ref.

Local Open Scope Z_scope.

(** Order of the BN254 scalar field. *)
Definition r : Z :=
  21888242871839275222246405745257275088548364400416034343698204186575808495617.

Fixpoint pow_mod_pos (b : Z) (e : positive) : Z :=
  match e with
  | xH => b mod r
  | xO e' => let t := pow_mod_pos b e' in (t * t) mod r
  | xI e' => let t := pow_mod_pos b e' in (t * t * b) mod r
  end.

Definition pow_mod (b e : Z) : Z :=
  match e with
  | Zpos p => pow_mod_pos b p
  | _ => 1
  end.

Definition inv_mod (a : Z) : Z := pow_mod a (r - 2).

Definition lin_comb (pts cs : list Z) : Z :=
  fold_right (fun pc acc => (pc.1 * pc.2 + acc) mod r) 0 (zip pts cs).

#[global] Instance bls : BlsPrimitives := {|
  Fr := Z;
  G1Point := Z;
  G2Point := Z;
  GT := Z;
  ZERO := 0;
  ONE := 1;
  MulModFr a b := (a * b) mod r;
  GenG1 := 1;
  GenG2 := 1;
  MulG2 p s := (p * s) mod r;
  SubG1 a b := (a - b) mod r;
  SubG2 a b := (a - b) mod r;
  LinCombG1 := lin_comb;
  pairing a b := (a * b) mod r
|}.

(** The trapdoor of the SRS. *)
Definition tau : Z := 20240229.

Definition srs_power (i : Z) : Z := pow_mod tau i.

Definition srs_powers (from : Z) (n : Z) : list Z :=
  map (fun k => srs_power (from + Z.of_nat k)) (seq 0 (Z.to_nat n)).

(** A primitive [2^28]-th root of unity, and the table of a domain of
    size [2^n]. *)
Definition root_2_28 : Z := Eval vm_compute in pow_mod 5 ((r - 1) / 2 ^ 28).

Definition roots_table (n : Z) : list Z :=
  let w := pow_mod root_2_28 (2 ^ (28 - n)) in
  map (fun k => pow_mod w (Z.of_nat k)) (seq 0 (Z.to_nat (2 ^ n) + 1)).

Definition is_power_of_two (n : Z) : bool :=
  (0 <? n) && (2 ^ Z.log2 n =? n).

(** Modelled from the spec: [Validate] of [encoding.EncodingParams] is not
    part of the file; the data model asks for a positive chunk count and
    evaluation count and a total evaluation count that is an exact power of
    two. *)
Definition validate (p : EncodingParams) : option error :=
  if (NumChunks p <=? 0) || (ChunkLength p <=? 0)
  then Some "invalid encoding params"%string
  else if is_power_of_two (uint64_wrap (NumChunks p * ChunkLength p))
       then None
       else Some "invalid encoding params"%string.

(** Reverses the low [log2 length] bits of [value]. *)
Definition reverse_bits_limited (length value : Z) : Z :=
  let bits := Z.to_nat (Z.log2 length) in
  fold_right (fun k acc => if Z.testbit value (Z.of_nat k)
                           then Z.setbit acc (Z.of_nat (bits - 1 - k))
                           else acc) 0 (seq 0 bits).

Definition to_byte (z : Z) : Byte.byte :=
  default Byte.x00 (Byte.of_N (Z.to_N (z mod 256))).

(** A stand-in for the reconstruction of the erasure coder: the low bytes of
    the coefficients in the order given. *)
Definition reconstruct (enc : EncodingParams) (frames : list (@rs_Frame bls))
    (indices : list Z) : result (list Byte.byte) :=
  if decide (length frames = length indices)
  then Ok (concat (map (fun f => map to_byte (rs_Coeffs f)) frames))
  else Err "number of frame must equal number of indices".

Definition read_point (n : Z) (cfg : KzgConfig) : result Z :=
  if n <? SRSOrder cfg
  then Ok (srs_power n)
  else Err "requested power is larger than SRSOrder".

#[global] Instance collaborators : Collaborators bls := {|
  Encoder := EncodingParams;
  Encoder_EncodingParams enc := enc;
  Validate := validate;
  NumEvaluations p := uint64_wrap (NumChunks p * ChunkLength p);
  log2_uint8 n := Z.log2 n mod 256;
  NewFFTSettings n := {| ExpandedRootsOfUnity := roots_table n |};
  NewKZGSettings fs srs := Ok {| ks_FFTSettings := fs; ks_Srs := srs |};
  NewSrs s1 s2 := Ok {| G1 := s1; G2 := s2 |};
  NewEncoder p verbose :=
    match validate p with
    | Some err => Err err
    | None => Ok p
    end;
  GetLeadingCosetIndex i numChunks :=
    if i <? numChunks
    then Ok (reverse_bits_limited numChunks i)
    else Err "cannot create number of frame higher than possible";
  rs_reconstruct := reconstruct;
  ReadG1Point := read_point;
  ReadG2Point := read_point;
  ReadG1Points path n workers := Ok (srs_powers 0 n);
  ReadG2Points path n workers := Ok (srs_powers 0 n);
  ReadG2PointSection path from to workers := Ok (srs_powers from (to - from))
|}.

(** *** An honest prover *)

Definition poly_eval (p : list Z) (z : Z) : Z :=
  fold_right (fun c acc => (c + z * acc) mod r) 0 p.

(** [p mod (X^n - c)], by Horner's rule on the blocks of [n] coefficients. *)
Fixpoint poly_rem (fuel : nat) (p : list Z) (n : nat) (c : Z) : list Z :=
  match fuel with
  | O => []
  | Datatypes.S k =>
    match drop n p with
    | [] => p
    | rest => zip_with (fun a b => (a + c * b) mod r) (take n p)
                (poly_rem k rest n c ++ replicate n 0)
    end
  end.

Definition config : KzgConfig := {|
  G1Path := "g1.point";
  G2Path := "g2.point";
  G2PowerOf2Path := "";
  NumWorker := 1;
  SRSOrder := 16;
  SRSNumberToLoad := 16;
  Verbose := false
|}.

(** The chunk of [p] at position [i]: the interpolating polynomial on its
    coset and the opening proof [(p(tau) - I(tau)) / (tau^n - x^n)]. *)
Definition prove_frame (p : list Z) (params : EncodingParams) (i : Z) : @Frame bls :=
  let j := reverse_bits_limited (NumChunks params) i in
  let table := roots_table (Z.log2 (NumChunks params * ChunkLength params)) in
  let x := nth (Z.to_nat j) table 0 in
  let n := ChunkLength params in
  let c := pow_mod x n in
  let coeffs := poly_rem (length p) p (Z.to_nat n) c in
  {| Proof := ((poly_eval p tau - poly_eval coeffs tau) * inv_mod (srs_power n - c)) mod r;
     Coeffs := coeffs |}.

(** Commitments of [p] for a claimed length. *)
Definition commit (p : list Z) (length : Z) : @BlobCommitments bls := {|
  Commitment := poly_eval p tau;
  LengthCommitment := poly_eval p tau;
  LengthProof := (srs_power (SRSOrder config - length) * poly_eval p tau) mod r;
  Length := length
|}.

Definition world0 : World := {|
  g := {| v_KzgConfig := config;
          Srs := {| G1 := srs_powers 0 16; G2 := srs_powers 0 16 |};
          G2Trailing := srs_powers 0 16;
          LoadG2Points := true;
          ParametrizedVerifiers := ∅ |};
  heap := []
|}.

(** The scenario of 4 chunks of 2 evaluations each. *)
Definition params42 : EncodingParams := {| NumChunks := 4; ChunkLength := 2 |}.
Definition poly8 : list Z := [3; 1; 4; 1; 5; 9; 2; 6].
Definition commitments8 : BlobCommitments := Eval vm_compute in commit poly8 8.
Definition commitments16 : BlobCommitments := Eval vm_compute in commit poly8 16.
Definition frames8 : list Frame :=
  Eval vm_compute in map (prove_frame poly8 params42) [0; 1; 2; 3].
Definition frame8 (i : nat) : Frame :=
  nth i frames8 {| Proof := 0; Coeffs := [] |}.

(** The world after the verifier of [params42] was first requested. *)
Definition world1 : World := (GetKzgVerifier params42 world0).2.

(** The settings of that verifier. *)
Definition ks42 : KZGSettings :=
  {| ks_FFTSettings := NewFFTSettings 3; ks_Srs := Srs (g world0) |}.

(** A frame of three coefficients. *)
Definition frame3 : @Frame bls := {| Proof := 0; Coeffs := [1; 2; 3] |}.

(** The same coefficients under another proof. *)
Definition frame3' : @Frame bls := {| Proof := 5; Coeffs := [1; 2; 3] |}.

(** The error of a failed frame check. *)
Definition proof_fails : error := "multireveal proof fails"%string.

(** Params with 6 evaluations. *)
Definition params32 : EncodingParams := {| NumChunks := 3; ChunkLength := 2 |}.

(** A frame with one coefficient changed. *)
Definition corrupt (f : @Frame bls) : Frame :=
  {| Proof := Proof f;
     Coeffs := match Coeffs f with
               | [] => []
               | c :: cs => ((c + 1) mod r) :: cs
               end |}.

(** A verifier that loaded only the first 4 of the 16 SRS points. *)
Definition config4 : KzgConfig := {|
  G1Path := "g1.point";
  G2Path := "g2.point";
  G2PowerOf2Path := "";
  NumWorker := 1;
  SRSOrder := 16;
  SRSNumberToLoad := 4;
  Verbose := false
|}.

Definition world4 : World := {|
  g := {| v_KzgConfig := config4;
          Srs := {| G1 := srs_powers 0 4; G2 := srs_powers 0 4 |};
          G2Trailing := srs_powers 12 4;
          LoadG2Points := true;
          ParametrizedVerifiers := ∅ |};
  heap := []
|}.

(** The world after the verifier of [params42] was requested there, and
    that verifier. *)
Definition world41 : World := (GetKzgVerifier params42 world4).2.

Definition pv4 : ParametrizedVerifier := {|
  pv_KzgConfig := config4;
  pv_Srs := Srs (g world4);
  pv_Encoder := params42;
  Fs := NewFFTSettings 3;
  Ks := {| ks_FFTSettings := NewFFTSettings 3; ks_Srs := Srs (g world4) |}
|}.

(** A frame of five coefficients. *)
Definition frame5 : @Frame bls := {| Proof := 0; Coeffs := [1; 2; 3; 4; 5] |}.

(** A frame without coefficients. *)
Definition frame_empty : @Frame bls := {| Proof := 0; Coeffs := [] |}.

End Ref.

(** ** Predicates of the statements *)

Section Predicates.
Context {B : BlsPrimitives} {C : Collaborators B}.

(** The pairing equation of the frame check over the first [n] SRS points. *)
Definition frame_equation (f : Frame) (ks : KZGSettings) (commitment : G1Point)
    (x : Fr) (g2Atn : G2Point) : Prop :=
  let n := length (Coeffs f) in
  pairing (SubG1 commitment (LinCombG1 (take n (G1 (ks_Srs ks))) (Coeffs f))) GenG2 =
  pairing (Proof f) (SubG2 g2Atn (MulG2 GenG2 (Fr_pow x n))).

#[global] Instance frame_equation_dec (f : Frame) (ks : KZGSettings)
    (commitment : G1Point) (x : Fr) (g2Atn : G2Point) :
  Decision (frame_equation f ks commitment x g2Atn).
Proof. unfold frame_equation. apply _. Defined.

(** [pv] is what [newKzgVerifier] builds for [params] on the verifier [v]. *)
Definition built_from (v : Verifier) (params : EncodingParams)
    (pv : ParametrizedVerifier) : Prop :=
  let fs := NewFFTSettings (log2_uint8 (NumEvaluations params)) in
  exists ks encoder,
    NewKZGSettings fs (Srs v) = Ok ks /\
    NewEncoder params (Verbose (v_KzgConfig v)) = Ok encoder /\
    pv = {| pv_KzgConfig := v_KzgConfig v;
            pv_Srs := Srs v;
            pv_Encoder := encoder;
            Fs := fs;
            Ks := ks |}.

(** Every cache entry maps validated params to a verifier built from them. *)
Definition cache_inv (w : World) : Prop :=
  forall params ver,
    ParametrizedVerifiers (g w) !! params = Some ver ->
    Validate params = None /\
    exists pv, heap w !! ver = Some pv /\ built_from (g w) params pv.

(** Chunks [0..k) of [rest], checked against [indices] from [ind] on. *)
Definition passes_from (verifier : loc) (commit : G1Point) (indices : list Z)
    (ind : nat) (rest : list Frame) (w : World) (k : nat) : Prop :=
  forall j f, j < k -> rest !! j = Some f ->
    exists idx, indices !! (ind + j) = Some idx /\
                (PV_VerifyFrame verifier commit f idx w).1 = Ret None.

(** What a call may do to the world: the configuration and the SRS stay,
    the heap only grows, and the cache stays or gains one entry that maps
    validated, so far uncached params to a verifier built from them. *)
Definition cache_step (w w' : World) : Prop :=
  v_KzgConfig (g w') = v_KzgConfig (g w) /\
  Srs (g w') = Srs (g w) /\
  (exists ext, heap w' = heap w ++ ext) /\
  (ParametrizedVerifiers (g w') = ParametrizedVerifiers (g w) \/
   exists params ver pv,
     Validate params = None /\
     ParametrizedVerifiers (g w) !! params = None /\
     built_from (g w) params pv /\
     heap w' !! ver = Some pv /\
     ParametrizedVerifiers (g w') = <[params := ver]> (ParametrizedVerifiers (g w))).

(** All chunks before position [k] verify, each against its own index. *)
Definition passes_before (verifier : loc) (commit : G1Point) (frames : list Frame)
    (indices : list Z) (w : World) (k : nat) : Prop :=
  passes_from verifier commit indices 0 frames w k.

(** The chunks before position [k] verify and the chunk at [k] fails with
    [e]. *)
Definition fails_first_at (verifier : loc) (commit : G1Point) (frames : list Frame)
    (indices : list Z) (w : World) (k : nat) (e : error) : Prop :=
  passes_before verifier commit frames indices w k /\
  exists f idx, frames !! k = Some f /\ indices !! k = Some idx /\
                (PV_VerifyFrame verifier commit f idx w).1 = Ret (Some e).

(** The error returned by [VerifyFrames] tells which chunk failed. *)
Definition error_identifies_chunk : Prop :=
  exists which : error -> nat,
    forall frames indices commitments params w verifier w1 k e,
      GetKzgVerifier params w = (Ret (Ok verifier), w1) ->
      fails_first_at verifier (Commitment commitments) frames indices w1 k e ->
      exists e', (VerifyFrames frames indices commitments params w).1 = Ret (Some e') /\
                 which e' = k.

(** A call with fewer indices than frames reads [indices] out of bounds. *)
Definition short_indices_always_panic : Prop :=
  forall frames indices commitments params w,
    length indices < length frames ->
    exists i len,
      (VerifyFrames frames indices commitments params w).1 =
      Panic (IndexOutOfRange at_indices i len).

(** The world after a sequence of calls of the interface. *)
Definition run_calls (cs : list call) (w : World) : World :=
  foldl (fun w' c => after c w') w cs.

(** No two params of the cache share an address, and every cached address
    is allocated. *)
Definition cache_injective (w : World) : Prop :=
  (forall p q ver,
     ParametrizedVerifiers (g w) !! p = Some ver ->
     ParametrizedVerifiers (g w) !! q = Some ver -> p = q) /\
  (forall p ver, ParametrizedVerifiers (g w) !! p = Some ver -> ver < length (heap w)).

(** Every verifier on the heap holds the configuration and the SRS of the
    [Verifier]. *)
Definition shares_config (w : World) : Prop :=
  forall ver pv, heap w !! ver = Some pv ->
    pv_KzgConfig pv = v_KzgConfig (g w) /\ pv_Srs pv = Srs (g w).

(** The frame check of the method passes: the coset index and the SRS point
    of G2 are obtained, the root of unity exists, and the pairing equation
    holds on the first [n] SRS points of G1. *)
Definition frame_accepted (pv : ParametrizedVerifier) (commit : G1Point) (f : Frame)
    (index : Z) : Prop :=
  exists j g2Atn x,
    GetLeadingCosetIndex (uint64_wrap index)
      (NumChunks (Encoder_EncodingParams (pv_Encoder pv))) = Ok j /\
    ReadG2Point (uint64_of_len (Coeffs f)) (pv_KzgConfig pv) = Ok g2Atn /\
    ExpandedRootsOfUnity (ks_FFTSettings (Ks pv)) !! Z.to_nat j = Some x /\
    length (Coeffs f) <= length (G1 (ks_Srs (Ks pv))) /\
    frame_equation f (Ks pv) commit x g2Atn.

End Predicates.

(** Unfolds the monad down to state-passing terms. *)
Ltac run_M := unfold M_bind, M_ret, get_g, lift, deref; simpl.

(** * Properties *)

Section PowerLoop.
Context {B : BlsPrimitives}.

Lemma for_range_succ {S : Type} (n : nat) (body : S -> S) (s : S) :
  for_range (Datatypes.S n) body s = body (for_range n body s).
Proof.
  revert s. induction n as [|n IH]; intros s; [reflexivity|].
  change (for_range (Datatypes.S (Datatypes.S n)) body s)
    with (for_range (Datatypes.S n) body (body s)).
  rewrite IH. reflexivity.
Qed.

Lemma pow_loop_succ (x : Fr) (n : nat) :
  pow_loop x (Datatypes.S n) = pow_body x (pow_loop x n).
Proof. unfold pow_loop. apply for_range_succ. Qed.

Lemma pow_loop_muls (x : Fr) (n : nat) : muls (pow_loop x n) = n.
Proof.
  induction n as [|n IH]; [reflexivity|].
  rewrite pow_loop_succ. simpl. by rewrite IH.
Qed.

Lemma pow_loop_xPow `{!BlsLaws B} (x : Fr) (n : nat) :
  xPow (pow_loop x n) = Fr_pow x n.
Proof.
  induction n as [|n IH]; [reflexivity|].
  rewrite pow_loop_succ. simpl. rewrite IH. apply MulModFr_comm.
Qed.

(** C6: the loop of [VerifyFrame] starts from [ONE], multiplies by [x] once
    per coefficient of the frame, and ends with the n-th power of [x], [n]
    being the coefficient count; with no coefficient the result is [ONE];
    that power is the scalar by which [VerifyFrame] multiplies [GenG2]. *)
Theorem pow_loop_computes_power `{!BlsLaws B} (f : Frame) (x : Fr) :
  let n := length (Coeffs f) in
  xPow pow_init = ONE /\
  muls (pow_loop x n) = n /\
  xPow (pow_loop x n) = Fr_pow x n /\
  (n = 0 -> xPow (pow_loop x n) = ONE) /\
  forall ks commitment g2Atn,
    VerifyFrame f ks commitment x g2Atn =
    outcome_bind (slice_to at_Srs_G1 (G1 (ks_Srs ks)) n) (fun pts =>
      Ret (PairingsVerify (SubG1 commitment (LinCombG1 pts (Coeffs f))) GenG2
             (Proof f) (SubG2 g2Atn (MulG2 GenG2 (Fr_pow x n))))).
Proof.
  intros n. split; [reflexivity|]. split; [apply pow_loop_muls|].
  split; [apply pow_loop_xPow|]. split; [intros ->; reflexivity|].
  intros ks commitment g2Atn. unfold VerifyFrame. fold n.
  by rewrite pow_loop_xPow.
Qed.

End PowerLoop.

Section FrameCheck.
Context {B : BlsPrimitives} `{!BlsLaws B}.

Lemma VerifyFrame_in_range (f : Frame) (ks : KZGSettings) (commitment : G1Point)
    (x : Fr) (g2Atn : G2Point) :
  length (Coeffs f) <= length (G1 (ks_Srs ks)) ->
  VerifyFrame f ks commitment x g2Atn =
  Ret (bool_decide (frame_equation f ks commitment x g2Atn)).
Proof.
  intros Hn. unfold VerifyFrame, slice_to, frame_equation, PairingsVerify.
  rewrite decide_True by exact Hn. simpl.
  rewrite pow_loop_xPow. reflexivity.
Qed.

Lemma VerifyFrame_out_of_range (f : Frame) (ks : KZGSettings) (commitment : G1Point)
    (x : Fr) (g2Atn : G2Point) :
  length (G1 (ks_Srs ks)) < length (Coeffs f) ->
  VerifyFrame f ks commitment x g2Atn =
  Panic (SliceBoundsOutOfRange at_Srs_G1 (length (Coeffs f)) (length (G1 (ks_Srs ks)))).
Proof.
  intros Hn. unfold VerifyFrame, slice_to.
  rewrite decide_False by lia. reflexivity.
Qed.

(** C1: [VerifyFrame] returns true exactly when the first [n] SRS points of
    G1 exist ([n] the coefficient count) and
    [e(c - LinComb(G1[0..n-1], f.Coeffs), GenG2) = e(f.Proof, g2Atn - x^n GenG2)];
    it returns false exactly when they exist and the equation fails. *)
Theorem VerifyFrame_accepts_iff (f : Frame) (ks : KZGSettings) (commitment : G1Point)
    (x : Fr) (g2Atn : G2Point) :
  let n := length (Coeffs f) in
  (VerifyFrame f ks commitment x g2Atn = Ret true <->
     n <= length (G1 (ks_Srs ks)) /\ frame_equation f ks commitment x g2Atn) /\
  (VerifyFrame f ks commitment x g2Atn = Ret false <->
     n <= length (G1 (ks_Srs ks)) /\ ~ frame_equation f ks commitment x g2Atn).
Proof.
  intros n.
  destruct (decide (n <= length (G1 (ks_Srs ks)))) as [Hn|Hn].
  - rewrite (VerifyFrame_in_range f ks commitment x g2Atn Hn).
    split; (split; [intros [= Hb]|intros [_ Hb]]).
    + split; [exact Hn|]. by apply bool_decide_eq_true in Hb.
    + f_equal. by apply bool_decide_eq_true.
    + split; [exact Hn|]. by apply bool_decide_eq_false in Hb.
    + f_equal. by apply bool_decide_eq_false.
  - rewrite (VerifyFrame_out_of_range f ks commitment x g2Atn) by (unfold n in Hn; lia).
    split; (split; [intros [=]|intros [Hle _]; contradiction]).
Qed.

End FrameCheck.

Lemma uint64_wrap_small (z : Z) : (0 <= z < 2 ^ 64)%Z -> uint64_wrap z = z.
Proof. intros Hz. unfold uint64_wrap. by apply Z.mod_small. Qed.

Lemma uint64_wrap_idem (z : Z) : uint64_wrap (uint64_wrap z) = uint64_wrap z.
Proof. unfold uint64_wrap. apply Z.mod_mod. lia. Qed.

Section LowDegree.
Context {B : BlsPrimitives} {C : Collaborators B}.

Lemma VerifyCommit_unfold (lengthCommit lowDegreeProof : G2Point) (length : Z) (w : World) :
  VerifyCommit lengthCommit lowDegreeProof length w =
  match ReadG1Point (uint64_sub (SRSOrder (v_KzgConfig (g w))) length) (v_KzgConfig (g w)) with
  | Err err => (Ret (Some err), w)
  | Ok g1Challenge =>
    (Ret (if bool_decide (pairing g1Challenge lengthCommit = pairing GenG1 lowDegreeProof)
          then None else Some "low degree proof fails"%string), w)
  end.
Proof.
  unfold VerifyCommit, VerifyLowDegreeProof, PairingsVerify. run_M.
  destruct (ReadG1Point _ _) as [g1|err]; [|reflexivity].
  by destruct (bool_decide _).
Qed.

(** C2: for a claimed length up to [SRSOrder] the challenge is the G1 SRS
    element read at index [SRSOrder - length] (index 0 when the length is
    [SRSOrder]); once that element is obtained, [VerifyCommit] returns no
    error exactly when [e(challenge, lengthCommit) = e(GenG1, proof)], and
    the error of a failed read is returned as it is. *)
Theorem VerifyCommit_challenge (lengthCommit lowDegreeProof : G2Point) (length : Z)
    (w : World) :
  let cfg := v_KzgConfig (g w) in
  (0 <= length <= SRSOrder cfg)%Z ->
  (SRSOrder cfg < 2 ^ 64)%Z ->
  uint64_sub (SRSOrder cfg) length = (SRSOrder cfg - length)%Z /\
  (length = SRSOrder cfg -> uint64_sub (SRSOrder cfg) length = 0%Z) /\
  (forall err, ReadG1Point (SRSOrder cfg - length) cfg = Err err ->
     VerifyCommit lengthCommit lowDegreeProof length w = (Ret (Some err), w)) /\
  (forall g1Challenge, ReadG1Point (SRSOrder cfg - length) cfg = Ok g1Challenge ->
     (VerifyCommit lengthCommit lowDegreeProof length w).2 = w /\
     ((VerifyCommit lengthCommit lowDegreeProof length w).1 = Ret None <->
      pairing g1Challenge lengthCommit = pairing GenG1 lowDegreeProof) /\
     ((VerifyCommit lengthCommit lowDegreeProof length w).1 =
        Ret (Some "low degree proof fails"%string) <->
      pairing g1Challenge lengthCommit <> pairing GenG1 lowDegreeProof)).
Proof.
  intros cfg Hlen Hord.
  assert (Hidx : uint64_sub (SRSOrder cfg) length = (SRSOrder cfg - length)%Z).
  { unfold uint64_sub. apply uint64_wrap_small. lia. }
  split; [exact Hidx|]. split; [intros ->; rewrite Hidx; lia|].
  rewrite VerifyCommit_unfold. fold cfg. rewrite Hidx.
  split.
  - intros err ->. reflexivity.
  - intros g1Challenge ->. simpl. split; [reflexivity|].
    destruct (bool_decide_reflect
                (pairing g1Challenge lengthCommit = pairing GenG1 lowDegreeProof)) as [He|He].
    + split; split; try done; intros [=].
    + split; split; try done; intros [=].
Qed.

End LowDegree.

Section Cache.
Context {B : BlsPrimitives} {C : Collaborators B}.

Lemma newKzgVerifier_invalid (params : EncodingParams) (err : error) (w : World) :
  Validate params = Some err ->
  newKzgVerifier params w = (Ret (Err err), w).
Proof. intros Hv. unfold newKzgVerifier. run_M. by rewrite Hv. Qed.

Lemma newKzgVerifier_built (params : EncodingParams) (w : World)
    (ks : KZGSettings) (encoder : Encoder) :
  Validate params = None ->
  NewKZGSettings (NewFFTSettings (log2_uint8 (NumEvaluations params))) (Srs (g w)) = Ok ks ->
  NewEncoder params (Verbose (v_KzgConfig (g w))) = Ok encoder ->
  newKzgVerifier params w =
  (Ret (Ok (length (heap w))),
   {| g := g w;
      heap := heap w ++ [ {| pv_KzgConfig := v_KzgConfig (g w);
                             pv_Srs := Srs (g w);
                             pv_Encoder := encoder;
                             Fs := NewFFTSettings (log2_uint8 (NumEvaluations params));
                             Ks := ks |} ] |}).
Proof.
  intros Hv Hks Henc. unfold newKzgVerifier, alloc. run_M.
  by rewrite Hv, Hks, Henc.
Qed.

(** What a call of [newKzgVerifier] can do: fail and leave the world as it
    is, or allocate a verifier built from [params]. *)
Lemma newKzgVerifier_cases (params : EncodingParams) (w : World) :
  (exists err, newKzgVerifier params w = (Ret (Err err), w)) \/
  (exists pv, Validate params = None /\ built_from (g w) params pv /\
     newKzgVerifier params w =
     (Ret (Ok (length (heap w))), {| g := g w; heap := heap w ++ [pv] |})).
Proof.
  destruct (Validate params) as [err|] eqn:Hv.
  { left. exists err. by apply newKzgVerifier_invalid. }
  destruct (NewKZGSettings (NewFFTSettings (log2_uint8 (NumEvaluations params)))
              (Srs (g w))) as [ks|err] eqn:Hks.
  2:{ left. exists err. unfold newKzgVerifier. run_M. by rewrite Hv, Hks. }
  destruct (NewEncoder params (Verbose (v_KzgConfig (g w)))) as [encoder|err] eqn:Henc.
  2:{ left. exists err. unfold newKzgVerifier. run_M. by rewrite Hv, Hks, Henc. }
  right. eexists. split; [done|]. split.
  - exists ks, encoder. split; [exact Hks|]. split; [exact Henc|reflexivity].
  - by apply newKzgVerifier_built.
Qed.

Lemma GetKzgVerifier_invalid (params : EncodingParams) (err : error) (w : World) :
  Validate params = Some err ->
  GetKzgVerifier params w = (Ret (Err err), w).
Proof. intros Hv. unfold GetKzgVerifier. by rewrite Hv. Qed.

Lemma GetKzgVerifier_hit (params : EncodingParams) (ver : loc) (w : World) :
  Validate params = None ->
  ParametrizedVerifiers (g w) !! params = Some ver ->
  GetKzgVerifier params w = (Ret (Ok ver), w).
Proof. intros Hv Hc. unfold GetKzgVerifier. rewrite Hv. run_M. by rewrite Hc. Qed.

Lemma GetKzgVerifier_miss (params : EncodingParams) (w : World) :
  Validate params = None ->
  ParametrizedVerifiers (g w) !! params = None ->
  GetKzgVerifier params w =
  match newKzgVerifier params w with
  | (Ret (Ok ver), w') => (Ret (Ok ver), (cache_store params ver w').2)
  | (Ret (Err err), w') => (Ret (Err err), w')
  | (Panic p, w') => (Panic p, w')
  end.
Proof.
  intros Hv Hc. unfold GetKzgVerifier. rewrite Hv. run_M. rewrite Hc.
  destruct (newKzgVerifier params w) as [[[ver|err]|p] w']; reflexivity.
Qed.

End Cache.

Section CacheClaims.
Context {B : BlsPrimitives} {C : Collaborators B}.

(** C5: when [params] fails validation, the cached getter and the
    cache-bypassing constructor both return the validation error, no
    verifier, and leave the world as it was. *)
Theorem invalid_params_rejected (params : EncodingParams) (err : error) (w : World) :
  Validate params = Some err ->
  GetKzgVerifier params w = (Ret (Err err), w) /\
  NewKzgVerifier params w = (Ret (Err err), w).
Proof.
  intros Hv. split.
  - by apply GetKzgVerifier_invalid.
  - unfold NewKzgVerifier. by apply newKzgVerifier_invalid.
Qed.

(** C4: for valid [params] not yet cached whose construction succeeds, the
    first call of the cached getter allocates one verifier built from
    [params], stores its address under [params] and returns it; the second
    call returns the same address and changes nothing, so it allocates no
    verifier. *)
Theorem GetKzgVerifier_twice (params : EncodingParams) (w : World)
    (ks : KZGSettings) (encoder : Encoder) :
  Validate params = None ->
  ParametrizedVerifiers (g w) !! params = None ->
  NewKZGSettings (NewFFTSettings (log2_uint8 (NumEvaluations params))) (Srs (g w)) = Ok ks ->
  NewEncoder params (Verbose (v_KzgConfig (g w))) = Ok encoder ->
  let pv := {| pv_KzgConfig := v_KzgConfig (g w);
               pv_Srs := Srs (g w);
               pv_Encoder := encoder;
               Fs := NewFFTSettings (log2_uint8 (NumEvaluations params));
               Ks := ks |} in
  let ver := length (heap w) in
  let w1 := (GetKzgVerifier params w).2 in
  GetKzgVerifier params w = (Ret (Ok ver), w1) /\
  heap w1 = heap w ++ [pv] /\
  heap w1 !! ver = Some pv /\
  ParametrizedVerifiers (g w1) = <[params := ver]> (ParametrizedVerifiers (g w)) /\
  GetKzgVerifier params w1 = (Ret (Ok ver), w1).
Proof.
  intros Hv Hmiss Hks Henc pv ver w1.
  assert (H1 : GetKzgVerifier params w =
               (Ret (Ok ver),
                {| g := {| v_KzgConfig := v_KzgConfig (g w);
                           Srs := Srs (g w);
                           G2Trailing := G2Trailing (g w);
                           LoadG2Points := LoadG2Points (g w);
                           ParametrizedVerifiers :=
                             <[params := ver]> (ParametrizedVerifiers (g w)) |};
                   heap := heap w ++ [pv] |})).
  { rewrite (GetKzgVerifier_miss params w Hv Hmiss).
    rewrite (newKzgVerifier_built params w ks encoder Hv Hks Henc). reflexivity. }
  unfold w1. rewrite H1. simpl.
  split; [reflexivity|]. split; [reflexivity|].
  split; [apply list_lookup_middle; reflexivity|].
  split; [reflexivity|].
  apply GetKzgVerifier_hit; [exact Hv|]. simpl. apply lookup_insert_eq.
Qed.

End CacheClaims.

Section SingleFrame.
Context {B : BlsPrimitives} {C : Collaborators B}.

Lemma PV_VerifyFrame_state (v : loc) (commit : G1Point) (f : Frame) (index : Z) (w : World) :
  (PV_VerifyFrame v commit f index w).2 = w.
Proof.
  unfold PV_VerifyFrame. run_M.
  destruct (heap w !! v) as [pv|]; [|reflexivity].
  destruct (GetLeadingCosetIndex _ _) as [j|err]; [|reflexivity].
  destruct (ReadG2Point _ _) as [g2Atn|err]; [|reflexivity].
  destruct (index_at _ _ _) as [x|p]; [|reflexivity].
  destruct (VerifyFrame _ _ _ _ _) as [[|]|p]; reflexivity.
Qed.

Lemma PV_VerifyFrame_wrap (v : loc) (commit : G1Point) (f : Frame) (index : Z) (w : World) :
  PV_VerifyFrame v commit f (uint64_wrap index) w = PV_VerifyFrame v commit f index w.
Proof. unfold PV_VerifyFrame. by rewrite uint64_wrap_idem. Qed.

Lemma VerifyFrame_panic_site (f : Frame) (ks : KZGSettings) (commit : G1Point)
    (x : Fr) (g2Atn : G2Point) (p : panic) :
  VerifyFrame f ks commit x g2Atn = Panic p ->
  p = SliceBoundsOutOfRange at_Srs_G1 (length (Coeffs f)) (length (G1 (ks_Srs ks))).
Proof.
  unfold VerifyFrame, slice_to. case_decide; simpl; [discriminate|]. by intros [= <-].
Qed.

(** A panic of the method never comes from reading [indices]. *)
Lemma PV_VerifyFrame_not_at_indices (v : loc) (commit : G1Point) (f : Frame)
    (index : Z) (w : World) (i : Z) (len : nat) :
  (PV_VerifyFrame v commit f index w).1 <> Panic (IndexOutOfRange at_indices i len).
Proof.
  unfold PV_VerifyFrame. run_M.
  destruct (heap w !! v) as [pv|]; [|discriminate].
  destruct (GetLeadingCosetIndex _ _) as [j|err]; [|discriminate].
  destruct (ReadG2Point _ _) as [g2Atn|err]; [|discriminate].
  unfold index_at. destruct (_ !! Z.to_nat j) as [x|]; [|discriminate].
  destruct (VerifyFrame _ _ _ _ _) as [[|]|p] eqn:Hvf; simpl; try discriminate.
  apply VerifyFrame_panic_site in Hvf. subst p. discriminate.
Qed.

(** C8: the method [VerifyFrame] of a [ParametrizedVerifier] leaves the
    world (the verifier with its cache and SRS, and the heap) as it was, and
    a second call with the same arguments returns what the first returned. *)
Theorem VerifyFrame_twice (v : loc) (commit : G1Point) (f : Frame) (index : Z) (w : World) :
  let first := PV_VerifyFrame v commit f index w in
  let second := PV_VerifyFrame v commit f index first.2 in
  second.1 = first.1 /\
  first.2 = w /\
  second.2 = w /\
  ParametrizedVerifiers (g second.2) = ParametrizedVerifiers (g w) /\
  Srs (g second.2) = Srs (g w) /\
  heap second.2 = heap w.
Proof.
  intros first second. unfold second, first.
  rewrite !PV_VerifyFrame_state. by repeat split.
Qed.

End SingleFrame.

Section Batch.
Context {B : BlsPrimitives} {C : Collaborators B}.

Lemma VerifyFrames_from_cons (verifier : loc) (commit : G1Point) (indices : list Z)
    (ind : nat) (f : Frame) (rest : list Frame) (w : World) :
  VerifyFrames_from verifier commit indices ind (f :: rest) w =
  match indices !! ind with
  | None => (Panic (IndexOutOfRange at_indices (Z.of_nat ind) (length indices)), w)
  | Some i =>
    match (PV_VerifyFrame verifier commit f i w).1 with
    | Ret None => VerifyFrames_from verifier commit indices (Datatypes.S ind) rest w
    | Ret (Some e) => (Ret (Some e), w)
    | Panic p => (Panic p, w)
    end
  end.
Proof.
  simpl. unfold M_bind at 1, lift, index_at. rewrite Nat2Z.id.
  destruct (indices !! ind) as [i|]; [|reflexivity].
  unfold M_bind at 1. rewrite PV_VerifyFrame_wrap.
  pose proof (PV_VerifyFrame_state verifier commit f i w) as Hst.
  destruct (PV_VerifyFrame verifier commit f i w) as [[[e|]|p] w']; simpl in *; by subst.
Qed.

Lemma VerifyFrames_from_state (verifier : loc) (commit : G1Point) (indices : list Z)
    (rest : list Frame) (w : World) :
  forall ind, (VerifyFrames_from verifier commit indices ind rest w).2 = w.
Proof.
  induction rest as [|f rest IH]; intros ind; [reflexivity|].
  rewrite VerifyFrames_from_cons.
  destruct (indices !! ind) as [i|]; [|reflexivity].
  destruct (PV_VerifyFrame verifier commit f i w).1 as [[e|]|p]; try reflexivity.
  apply IH.
Qed.

Lemma passes_from_tail (verifier : loc) (commit : G1Point) (indices : list Z)
    (ind : nat) (f : Frame) (rest : list Frame) (w : World) (k : nat) :
  passes_from verifier commit indices ind (f :: rest) w (Datatypes.S k) ->
  (exists idx, indices !! ind = Some idx /\
               (PV_VerifyFrame verifier commit f idx w).1 = Ret None) /\
  passes_from verifier commit indices (Datatypes.S ind) rest w k.
Proof.
  intros Hp. split.
  - destruct (Hp 0 f) as (idx & Hi & Hr); [lia|reflexivity|].
    rewrite Nat.add_0_r in Hi. eauto.
  - intros j f' Hj Hf'. destruct (Hp (Datatypes.S j) f') as (idx & Hi & Hr); [lia|exact Hf'|].
    rewrite Nat.add_succ_r in Hi. eauto.
Qed.

Lemma VerifyFrames_from_skip (verifier : loc) (commit : G1Point) (indices : list Z)
    (w : World) (k : nat) :
  forall ind rest,
    k <= length rest ->
    passes_from verifier commit indices ind rest w k ->
    VerifyFrames_from verifier commit indices ind rest w =
    VerifyFrames_from verifier commit indices (ind + k) (drop k rest) w.
Proof.
  induction k as [|k IH]; intros ind rest Hk Hp.
  { by rewrite Nat.add_0_r, drop_0. }
  destruct rest as [|f rest]; [simpl in Hk; lia|].
  apply passes_from_tail in Hp as [(idx & Hi & Hr) Hp].
  rewrite VerifyFrames_from_cons, Hi, Hr.
  rewrite (IH (Datatypes.S ind) rest); [|simpl in Hk; lia|exact Hp].
  simpl. by rewrite Nat.add_succ_r.
Qed.

End Batch.

Section BatchClaims.
Context {B : BlsPrimitives} {C : Collaborators B}.

Lemma VerifyFrames_unfold (frames : list Frame) (indices : list Z)
    (commitments : BlobCommitments) (params : EncodingParams) (w : World) :
  VerifyFrames frames indices commitments params w =
  match GetKzgVerifier params w with
  | (Ret (Ok verifier), w1) =>
      VerifyFrames_from verifier (Commitment commitments) indices 0 frames w1
  | (Ret (Err err), w1) => (Ret (Some err), w1)
  | (Panic p, w1) => (Panic p, w1)
  end.
Proof.
  unfold VerifyFrames, M_bind.
  destruct (GetKzgVerifier params w) as [[[verifier|err]|p] w1]; reflexivity.
Qed.

Lemma VerifyFrames_from_fail (verifier : loc) (commit : G1Point) (indices : list Z)
    (frames : list Frame) (w : World) (k : nat) (e : error) :
  fails_first_at verifier commit frames indices w k e ->
  VerifyFrames_from verifier commit indices 0 frames w = (Ret (Some e), w).
Proof.
  intros [Hp (f & idx & Hf & Hi & Hr)].
  rewrite (VerifyFrames_from_skip verifier commit indices w k 0 frames);
    [|apply lookup_lt_Some in Hf; lia|exact Hp].
  rewrite (drop_S _ _ _ Hf), VerifyFrames_from_cons. simpl. by rewrite Hi, Hr.
Qed.

Lemma VerifyFrames_from_pass (verifier : loc) (commit : G1Point) (indices : list Z)
    (frames : list Frame) (w : World) :
  passes_before verifier commit frames indices w (length frames) ->
  VerifyFrames_from verifier commit indices 0 frames w = (Ret None, w).
Proof.
  intros Hp.
  rewrite (VerifyFrames_from_skip verifier commit indices w (length frames) 0 frames);
    [|lia|exact Hp].
  by rewrite drop_all.
Qed.

Lemma VerifyFrames_from_short (verifier : loc) (commit : G1Point) (indices : list Z)
    (frames : list Frame) (w : World) :
  length indices < length frames ->
  passes_before verifier commit frames indices w (length indices) ->
  VerifyFrames_from verifier commit indices 0 frames w =
  (Panic (IndexOutOfRange at_indices (Z.of_nat (length indices)) (length indices)), w).
Proof.
  intros Hlen Hp.
  rewrite (VerifyFrames_from_skip verifier commit indices w (length indices) 0 frames);
    [|lia|exact Hp].
  destruct (lookup_lt_is_Some_2 frames (length indices) Hlen) as [f Hf].
  rewrite (drop_S _ _ _ Hf), VerifyFrames_from_cons. simpl.
  by rewrite (lookup_ge_None_2 indices (length indices)).
Qed.

Lemma fails_first_at_prefix (verifier : loc) (commit : G1Point) (frames later : list Frame)
    (indices : list Z) (w : World) (k : nat) (e : error) :
  fails_first_at verifier commit frames indices w k e ->
  fails_first_at verifier commit (take (Datatypes.S k) frames ++ later) indices w k e.
Proof.
  intros [Hp (f & idx & Hf & Hi & Hr)].
  assert (Hlk : forall j, j <= k ->
            (take (Datatypes.S k) frames ++ later) !! j = frames !! j).
  { intros j Hj. pose proof (lookup_lt_Some _ _ _ Hf) as Hlt.
    rewrite lookup_app_l by (rewrite length_take; lia).
    apply lookup_take_lt. lia. }
  split.
  - intros j f' Hj Hf'. rewrite Hlk in Hf' by lia. by apply (Hp j f').
  - exists f, idx. rewrite Hlk by lia. done.
Qed.

Lemma GetKzgVerifier_no_panic (params : EncodingParams) (w : World) (p : panic) :
  (GetKzgVerifier params w).1 <> Panic p.
Proof.
  destruct (Validate params) as [err|] eqn:Hv.
  { by rewrite (GetKzgVerifier_invalid params err w Hv). }
  destruct (ParametrizedVerifiers (g w) !! params) as [ver|] eqn:Hc.
  { by rewrite (GetKzgVerifier_hit params ver w Hv Hc). }
  rewrite (GetKzgVerifier_miss params w Hv Hc).
  destruct (newKzgVerifier_cases params w) as [[err ->]|(pv & _ & _ & ->)]; done.
Qed.

(** A panic at [indices] comes after a run of passing chunks that uses up
    the indices. *)
Lemma VerifyFrames_from_panic_inv (verifier : loc) (commit : G1Point) (indices : list Z)
    (w : World) (i : Z) (len : nat) (rest : list Frame) :
  forall ind,
    (VerifyFrames_from verifier commit indices ind rest w).1 =
      Panic (IndexOutOfRange at_indices i len) ->
    exists k, k < length rest /\ indices !! (ind + k) = None /\
              i = Z.of_nat (ind + k) /\ len = length indices /\
              passes_from verifier commit indices ind rest w k.
Proof.
  induction rest as [|f rest IH]; intros ind Hpanic; [discriminate|].
  rewrite VerifyFrames_from_cons in Hpanic.
  destruct (indices !! ind) as [idx|] eqn:Hi.
  - destruct (PV_VerifyFrame verifier commit f idx w).1 as [[e|]|p] eqn:Hr;
      simpl in Hpanic; [discriminate| |].
    + destruct (IH _ Hpanic) as (k & Hk & Hnone & -> & -> & Hp).
      exists (Datatypes.S k). rewrite Nat.add_succ_r. simpl.
      split; [lia|]. split; [exact Hnone|]. split; [reflexivity|]. split; [reflexivity|].
      intros [|j] f' Hj Hf'.
      * simpl in Hf'. injection Hf' as <-. rewrite Nat.add_0_r. eauto.
      * rewrite Nat.add_succ_r. apply (Hp j f'); [lia|exact Hf'].
    + injection Hpanic as ->. exfalso.
      by apply (PV_VerifyFrame_not_at_indices verifier commit f idx w i len).
  - simpl in Hpanic. injection Hpanic as <- <-.
    exists 0. rewrite Nat.add_0_r. simpl.
    split; [lia|]. split; [exact Hi|]. split; [reflexivity|]. split; [reflexivity|].
    intros j f' Hj. lia.
Qed.

(** C3: [VerifyFrames] obtains the verifier of [params] (returning the error
    of that step if it fails), then checks the chunks in order against the
    one commitment: when the chunks before position [k] verify and chunk [k]
    fails with [e], the call returns exactly [e], whatever follows position
    [k]; when all chunks verify it returns no error. *)
Theorem VerifyFrames_first_failure (frames : list Frame) (indices : list Z)
    (commitments : BlobCommitments) (params : EncodingParams) (w : World) :
  (forall err w1,
     GetKzgVerifier params w = (Ret (Err err), w1) ->
     VerifyFrames frames indices commitments params w = (Ret (Some err), w1)) /\
  (forall verifier w1,
     GetKzgVerifier params w = (Ret (Ok verifier), w1) ->
     (forall k e,
        fails_first_at verifier (Commitment commitments) frames indices w1 k e ->
        VerifyFrames frames indices commitments params w = (Ret (Some e), w1) /\
        forall later,
          VerifyFrames (take (Datatypes.S k) frames ++ later) indices commitments params w =
          (Ret (Some e), w1)) /\
     (passes_before verifier (Commitment commitments) frames indices w1 (length frames) ->
      VerifyFrames frames indices commitments params w = (Ret None, w1))).
Proof.
  split.
  - intros err w1 Hg. by rewrite VerifyFrames_unfold, Hg.
  - intros verifier w1 Hg. split.
    + intros k e Hfail. split.
      * rewrite VerifyFrames_unfold, Hg. by apply (VerifyFrames_from_fail _ _ _ _ _ k).
      * intros later. rewrite VerifyFrames_unfold, Hg.
        apply (VerifyFrames_from_fail _ _ _ _ _ k). by apply fails_first_at_prefix.
    + intros Hp. rewrite VerifyFrames_unfold, Hg. by apply VerifyFrames_from_pass.
Qed.

(** C9: [VerifyFrames] reads [indices[ind]] without comparing the lengths.
    With at least as many indices as frames no read is out of bounds.  With
    fewer indices, the read at position [len(indices)] panics exactly when
    the verifier is obtained and every chunk before that position verifies;
    an earlier error is returned before the read is reached. *)
Theorem VerifyFrames_indices_bounds (frames : list Frame) (indices : list Z)
    (commitments : BlobCommitments) (params : EncodingParams) (w : World) :
  (length frames <= length indices ->
   forall i len,
     (VerifyFrames frames indices commitments params w).1 <>
     Panic (IndexOutOfRange at_indices i len)) /\
  (length indices < length frames ->
   forall i len,
     (VerifyFrames frames indices commitments params w).1 =
       Panic (IndexOutOfRange at_indices i len) <->
     i = Z.of_nat (length indices) /\ len = length indices /\
     exists verifier w1,
       GetKzgVerifier params w = (Ret (Ok verifier), w1) /\
       passes_before verifier (Commitment commitments) frames indices w1 (length indices)).
Proof.
  assert (Hinv : forall i len,
    (VerifyFrames frames indices commitments params w).1 =
      Panic (IndexOutOfRange at_indices i len) ->
    exists verifier w1 k,
      GetKzgVerifier params w = (Ret (Ok verifier), w1) /\
      k < length frames /\ indices !! k = None /\ i = Z.of_nat k /\ len = length indices /\
      passes_before verifier (Commitment commitments) frames indices w1 k).
  { intros i len Hpanic. rewrite VerifyFrames_unfold in Hpanic.
    pose proof (GetKzgVerifier_no_panic params w) as Hnp.
    destruct (GetKzgVerifier params w) as [[[verifier|err]|p] w1]; simpl in *;
      [|discriminate|by destruct (Hnp p)].
    apply VerifyFrames_from_panic_inv in Hpanic as (k & Hk & Hnone & -> & -> & Hp).
    exists verifier, w1, k. done. }
  split.
  - intros Hlen i len Hpanic.
    destruct (Hinv i len Hpanic) as (_ & _ & k & _ & Hk & Hnone & _).
    apply lookup_ge_None in Hnone. lia.
  - intros Hlen i len. split.
    + intros Hpanic.
      destruct (Hinv i len Hpanic) as (verifier & w1 & k & Hg & Hk & Hnone & -> & -> & Hp).
      apply lookup_ge_None in Hnone.
      assert (k = length indices) as ->.
      { destruct (decide (k = length indices)) as [|Hne]; [done|exfalso].
        destruct (lookup_lt_is_Some_2 frames (length indices)) as [f Hf]; [lia|].
        destruct (Hp (length indices) f) as (idx & Hi & _); [lia|exact Hf|].
        simpl in Hi. apply lookup_lt_Some in Hi. lia. }
      eauto 6.
    + intros (-> & -> & verifier & w1 & Hg & Hp).
      rewrite VerifyFrames_unfold, Hg.
      by rewrite (VerifyFrames_from_short verifier _ indices frames w1 Hlen Hp).
Qed.

End BatchClaims.

Section Invariant.
Context {B : BlsPrimitives} {C : Collaborators B}.

Lemma cache_step_refl (w : World) : cache_step w w.
Proof.
  split; [reflexivity|]. split; [reflexivity|].
  split; [exists []; by rewrite app_nil_r|by left].
Qed.

Lemma newKzgVerifier_step (params : EncodingParams) (w : World) :
  cache_step w (newKzgVerifier params w).2.
Proof.
  destruct (newKzgVerifier_cases params w) as [[err ->]|(pv & _ & _ & ->)]; simpl.
  - apply cache_step_refl.
  - split; [reflexivity|]. split; [reflexivity|]. split; [by exists [pv]|by left].
Qed.

Lemma GetKzgVerifier_step (params : EncodingParams) (w : World) :
  cache_step w (GetKzgVerifier params w).2 /\
  forall ver, (GetKzgVerifier params w).1 = Ret (Ok ver) ->
              ParametrizedVerifiers (g (GetKzgVerifier params w).2) !! params = Some ver.
Proof.
  destruct (Validate params) as [err|] eqn:Hv.
  { rewrite (GetKzgVerifier_invalid params err w Hv). simpl.
    split; [apply cache_step_refl|discriminate]. }
  destruct (ParametrizedVerifiers (g w) !! params) as [ver|] eqn:Hc.
  { rewrite (GetKzgVerifier_hit params ver w Hv Hc). simpl.
    split; [apply cache_step_refl|]. by intros ? [= <-]. }
  rewrite (GetKzgVerifier_miss params w Hv Hc).
  destruct (newKzgVerifier_cases params w) as [[err ->]|(pv & _ & Hb & ->)]; simpl.
  { split; [apply cache_step_refl|discriminate]. }
  split.
  - split; [reflexivity|]. split; [reflexivity|]. split; [by exists [pv]|].
    right. exists params, (length (heap w)), pv.
    split; [exact Hv|]. split; [exact Hc|]. split; [exact Hb|].
    split; [apply list_lookup_middle; reflexivity|reflexivity].
  - intros ? [= <-]. apply lookup_insert_eq.
Qed.

Lemma GetKzgVerifier_failure_state (params : EncodingParams) (w : World) (err : error) :
  (GetKzgVerifier params w).1 = Ret (Err err) ->
  (GetKzgVerifier params w).2 = w.
Proof.
  destruct (Validate params) as [e|] eqn:Hv.
  { by rewrite (GetKzgVerifier_invalid params e w Hv). }
  destruct (ParametrizedVerifiers (g w) !! params) as [ver|] eqn:Hc.
  { by rewrite (GetKzgVerifier_hit params ver w Hv Hc). }
  rewrite (GetKzgVerifier_miss params w Hv Hc).
  destruct (newKzgVerifier_cases params w) as [[e ->]|(pv & _ & _ & ->)]; simpl; done.
Qed.

Lemma VerifyCommit_state (lengthCommit lowDegreeProof : G2Point) (length : Z) (w : World) :
  (VerifyCommit lengthCommit lowDegreeProof length w).2 = w.
Proof. rewrite VerifyCommit_unfold. by destruct (ReadG1Point _ _). Qed.

Lemma VerifyFrames_state (frames : list Frame) (indices : list Z)
    (commitments : BlobCommitments) (params : EncodingParams) (w : World) :
  (VerifyFrames frames indices commitments params w).2 = (GetKzgVerifier params w).2.
Proof.
  rewrite VerifyFrames_unfold.
  destruct (GetKzgVerifier params w) as [[[verifier|err]|p] w1]; simpl; try reflexivity.
  apply VerifyFrames_from_state.
Qed.

Lemma Decode_state (chunks : list Frame) (indices : list Z) (params : EncodingParams)
    (maxInputSize : Z) (w : World) :
  (Decode chunks indices params maxInputSize w).2 = (GetKzgVerifier params w).2.
Proof.
  unfold Decode. run_M.
  destruct (GetKzgVerifier params w) as [[[encoder|err]|p] w1]; simpl; try reflexivity.
  by destruct (heap w1 !! encoder).
Qed.

Lemma after_step (c : call) (w : World) : cache_step w (after c w).
Proof.
  destruct c; simpl.
  - apply GetKzgVerifier_step.
  - apply newKzgVerifier_step.
  - unfold VerifyBlobLength. rewrite VerifyCommit_state. apply cache_step_refl.
  - rewrite VerifyCommit_state. apply cache_step_refl.
  - rewrite VerifyFrames_state. apply GetKzgVerifier_step.
  - rewrite PV_VerifyFrame_state. apply cache_step_refl.
  - rewrite Decode_state. apply GetKzgVerifier_step.
Qed.

Lemma built_from_step (w w' : World) (params : EncodingParams) (pv : ParametrizedVerifier) :
  v_KzgConfig (g w') = v_KzgConfig (g w) ->
  Srs (g w') = Srs (g w) ->
  built_from (g w) params pv -> built_from (g w') params pv.
Proof. unfold built_from. by intros -> ->. Qed.

Lemma cache_inv_step (w w' : World) : cache_inv w -> cache_step w w' -> cache_inv w'.
Proof.
  intros Hinv (Hcfg & Hsrs & [ext Hheap] & Hcache) params ver Hl.
  destruct Hcache as [Heq|(params' & ver' & pv' & Hv & _ & Hb & Hh & Heq)];
    rewrite Heq in Hl.
  - destruct (Hinv params ver Hl) as (Hv & pv & Hpv & Hb). split; [exact Hv|].
    exists pv. split; [|by apply (built_from_step w)].
    rewrite Hheap. by apply lookup_app_l_Some.
  - destruct (decide (params' = params)) as [->|Hne].
    + rewrite lookup_insert_eq in Hl. injection Hl as <-. split; [exact Hv|].
      exists pv'. split; [exact Hh|by apply (built_from_step w)].
    + rewrite lookup_insert_ne in Hl by exact Hne.
      destruct (Hinv params ver Hl) as (Hv' & pv & Hpv & Hb'). split; [exact Hv'|].
      exists pv. split; [|by apply (built_from_step w)].
      rewrite Hheap. by apply lookup_app_l_Some.
Qed.

Lemma NewVerifier_cache_empty (config : KzgConfig) (loadG2Points : bool) (v : Verifier) :
  NewVerifier config loadG2Points = Ok v -> ParametrizedVerifiers v = ∅.
Proof.
  unfold NewVerifier. intros Hnew.
  repeat (case_decide || case_match || simplify_eq/=); done.
Qed.

Lemma reachable_cache_inv (w : World) : reachable w -> cache_inv w.
Proof.
  induction 1 as [config loadG2Points v Hnew|c w Hr IH].
  - intros params ver Hl. simpl in Hl.
    rewrite (NewVerifier_cache_empty _ _ _ Hnew), lookup_empty in Hl. discriminate.
  - apply (cache_inv_step w); [exact IH|apply after_step].
Qed.

(** C10: a failing call of the cached getter leaves the world, hence the
    cache, as it was; every call of the interface either keeps the cache or
    inserts one verifier built from validated params under those params; so
    in every reachable world each cache entry maps valid params to a
    verifier on the heap built from exactly those params. *)
Theorem cache_only_holds_built_verifiers :
  (forall params w err,
     (GetKzgVerifier params w).1 = Ret (Err err) -> (GetKzgVerifier params w).2 = w) /\
  (forall c w, cache_step w (after c w)) /\
  (forall w, reachable w -> cache_inv w).
Proof.
  split; [exact GetKzgVerifier_failure_state|].
  split; [exact after_step|exact reachable_cache_inv].
Qed.

End Invariant.

Section DecodeClaims.
Context {B : BlsPrimitives} {C : Collaborators B}.

Lemma assign_range_spec {A T} (f : A -> T) (src : list A) :
  forall (i : nat) (res : list T),
    length res = i + length src ->
    assign_range f i src res = take i res ++ map f src.
Proof.
  induction src as [|d src IH]; intros i res Hlen; simpl in *.
  - rewrite app_nil_r, take_ge; [reflexivity|lia].
  - rewrite IH by (rewrite length_insert; lia).
    assert (Hi : i < length res) by lia.
    rewrite (take_S_r _ i (f d)) by (by apply list_lookup_insert_eq).
    rewrite take_insert_ge by lia. by rewrite <- app_assoc.
Qed.

Lemma assign_range_make {A T} (f : A -> T) (src : list A) (zero : T) :
  assign_range f 0 src (make (length src) zero) = map f src.
Proof.
  rewrite assign_range_spec; [by rewrite take_0|].
  unfold make. by rewrite length_replicate.
Qed.

Lemma toUint64Array_map (chunkIndices : list Z) :
  toUint64Array chunkIndices = map uint64_wrap chunkIndices.
Proof. apply assign_range_make. Qed.

Lemma Decode_unfold (chunks : list Frame) (indices : list Z) (params : EncodingParams)
    (maxInputSize : Z) (w : World) :
  Decode chunks indices params maxInputSize w =
  match GetKzgVerifier params w with
  | (Ret (Ok encoder), w1) =>
    match heap w1 !! encoder with
    | Some pv =>
      (Ret (match rs_reconstruct (pv_Encoder pv)
                    (map (fun c => {| rs_Coeffs := Coeffs c |}) chunks)
                    (map uint64_wrap indices) with
            | Ok data => Ok (take (Z.to_nat maxInputSize) data)
            | Err err => Err err
            end), w1)
    | None => (Panic NilDereference, w1)
    end
  | (Ret (Err err), w1) => (Ret (Err err), w1)
  | (Panic p, w1) => (Panic p, w1)
  end.
Proof.
  unfold Decode. rewrite assign_range_make, toUint64Array_map. run_M.
  destruct (GetKzgVerifier params w) as [[[encoder|err]|p] w1]; try reflexivity.
  destruct (heap w1 !! encoder) as [pv|]; reflexivity.
Qed.

Lemma rs_frames_of_coeffs (chunks chunks' : list Frame) :
  map Coeffs chunks' = map Coeffs chunks ->
  map (fun c => {| rs_Coeffs := Coeffs c |}) chunks' =
  map (fun c => {| rs_Coeffs := Coeffs c |}) chunks.
Proof.
  intros Heq.
  change (map (fun c : Frame => {| rs_Coeffs := Coeffs c |}))
    with (map (fun c : Frame => (fun cs => {| rs_Coeffs := cs |}) (Coeffs c))).
  rewrite <- !(map_map Coeffs (fun cs => {| rs_Coeffs := cs |})). by rewrite Heq.
Qed.

(** C7: [Decode] hands the coefficient sequences of the chunks and the
    indices to the reconstruction of the erasure coder held by the verifier
    of [params], and returns its result cut to [maxInputSize] bytes; the
    proofs of the chunks are not used, so chunk lists with equal coefficient
    sequences decode alike; in a reachable world that coder is the one
    constructed for [params]. *)
Theorem Decode_uses_coefficients_only (chunks : list Frame) (indices : list Z)
    (params : EncodingParams) (maxInputSize : Z) (w : World) :
  (forall err w1,
     GetKzgVerifier params w = (Ret (Err err), w1) ->
     Decode chunks indices params maxInputSize w = (Ret (Err err), w1)) /\
  (forall encoder w1 pv,
     GetKzgVerifier params w = (Ret (Ok encoder), w1) ->
     heap w1 !! encoder = Some pv ->
     Decode chunks indices params maxInputSize w =
     (Ret (match rs_reconstruct (pv_Encoder pv)
                   (map (fun c => {| rs_Coeffs := Coeffs c |}) chunks)
                   (map uint64_wrap indices) with
           | Ok data => Ok (take (Z.to_nat maxInputSize) data)
           | Err err => Err err
           end), w1)) /\
  (forall chunks',
     map Coeffs chunks' = map Coeffs chunks ->
     Decode chunks' indices params maxInputSize w =
     Decode chunks indices params maxInputSize w) /\
  (reachable w ->
   forall encoder w1,
     GetKzgVerifier params w = (Ret (Ok encoder), w1) ->
     exists pv, heap w1 !! encoder = Some pv /\
                NewEncoder params (Verbose (v_KzgConfig (g w))) = Ok (pv_Encoder pv)).
Proof.
  split; [|split; [|split]].
  - intros err w1 Hg. by rewrite Decode_unfold, Hg.
  - intros encoder w1 pv Hg Hpv. by rewrite Decode_unfold, Hg, Hpv.
  - intros chunks' Heq. rewrite !Decode_unfold. by rewrite (rs_frames_of_coeffs _ _ Heq).
  - intros Hr encoder w1 Hg.
    pose proof (GetKzgVerifier_step params w) as [Hstep Hcached].
    pose proof (cache_inv_step _ _ (reachable_cache_inv w Hr) Hstep) as Hinv.
    rewrite Hg in Hcached, Hinv, Hstep. simpl in *.
    destruct (Hinv params encoder (Hcached encoder eq_refl))
      as (_ & pv & Hpv & ks & enc & _ & Henc & ->).
    exists {| pv_KzgConfig := v_KzgConfig (g w1); pv_Srs := Srs (g w1);
              pv_Encoder := enc;
              Fs := NewFFTSettings (log2_uint8 (NumEvaluations params)); Ks := ks |}.
    split; [exact Hpv|]. simpl. destruct Hstep as (Hcfg & _). by rewrite <- Hcfg.
Qed.

End DecodeClaims.

(** * The reference instance at work *)

Import Ref.

#[global] Instance bls_laws : BlsLaws bls.
Proof. split. intros a b. simpl. by rewrite Z.mul_comm. Qed.

(** In the reference instance [Fr_pow] is exponentiation modulo [r]. *)
Lemma Fr_pow_Zpow (x : Z) (n : nat) : Fr_pow (B := bls) x n = ((x ^ Z.of_nat n) mod r)%Z.
Proof.
  induction n as [|n IH]; [reflexivity|].
  rewrite Nat2Z.inj_succ, Z.pow_succ_r by lia.
  simpl. rewrite IH. apply Zmult_mod_idemp_r.
Qed.

Lemma NewVerifier_world0 : NewVerifier config true = Ok (g world0).
Proof. reflexivity. Qed.

Lemma reachable_world0 : reachable world0.
Proof. apply (reachable_new config true). apply NewVerifier_world0. Qed.

Lemma GetKzgVerifier_world0 : GetKzgVerifier params42 world0 = (Ret (Ok 0), world1).
Proof. reflexivity. Qed.

Lemma reachable_world1 : reachable world1.
Proof. apply (reachable_call (CallGetKzgVerifier params42) world0), reachable_world0. Qed.

Lemma pow_loop_computes_power_witness :
  BlsLaws bls /\
  muls (pow_loop (B := bls) 7%Z 3) = 3 /\
  xPow (pow_loop (B := bls) 7%Z 3) = Fr_pow (B := bls) 7%Z 3.
Proof.
  split; [exact bls_laws|].
  destruct (pow_loop_computes_power (B := bls) frame3 7%Z)
    as (_ & Hm & Hp & _).
  split; [exact Hm|exact Hp].
Defined.

Lemma VerifyFrame_accepts_iff_witness :
  BlsLaws bls /\
  VerifyFrame (frame8 0) ks42 (Commitment commitments8) 1%Z (srs_power 2) = Ret true /\
  frame_equation (frame8 0) ks42 (Commitment commitments8) 1%Z (srs_power 2).
Proof.
  split; [exact bls_laws|].
  assert (Hv : VerifyFrame (frame8 0) ks42 (Commitment commitments8) 1%Z (srs_power 2)
               = Ret true) by (vm_compute; reflexivity).
  split; [exact Hv|].
  destruct (VerifyFrame_accepts_iff (B := bls) (frame8 0) ks42 (Commitment commitments8)
              1%Z (srs_power 2)) as [[Hacc _] _].
  exact (proj2 (Hacc Hv)).
Defined.

Lemma VerifyCommit_challenge_witness :
  ((0 <= 16 <= SRSOrder (v_KzgConfig (g world0)))%Z /\
   (SRSOrder (v_KzgConfig (g world0)) < 2 ^ 64)%Z) /\
  uint64_sub (SRSOrder (v_KzgConfig (g world0))) 16 = 0%Z /\
  (VerifyCommit (LengthCommitment commitments16) (LengthProof commitments16)
     16 world0).1 = Ret None.
Proof.
  assert (Hlen : (0 <= 16 <= SRSOrder (v_KzgConfig (g world0)))%Z).
  { change (SRSOrder (v_KzgConfig (g world0))) with 16%Z. lia. }
  assert (Hord : (SRSOrder (v_KzgConfig (g world0)) < 2 ^ 64)%Z).
  { change (SRSOrder (v_KzgConfig (g world0))) with 16%Z. lia. }
  split; [by split|].
  destruct (VerifyCommit_challenge (LengthCommitment commitments16)
              (LengthProof commitments16) 16 world0 Hlen Hord)
    as (_ & Hzero & _ & Hok).
  split; [apply Hzero; reflexivity|].
  destruct (Hok 1%Z) as (_ & Hiff & _); [reflexivity|].
  apply Hiff. vm_compute. reflexivity.
Defined.

Lemma invalid_params_rejected_witness :
  Validate params32 = Some "invalid encoding params"%string /\
  GetKzgVerifier params32 world0 = (Ret (Err "invalid encoding params"%string), world0) /\
  NewKzgVerifier params32 world0 = (Ret (Err "invalid encoding params"%string), world0).
Proof.
  assert (Hv : Validate params32 = Some "invalid encoding params"%string) by reflexivity.
  split; [exact Hv|].
  exact (invalid_params_rejected params32 _ world0 Hv).
Defined.

Lemma GetKzgVerifier_twice_witness :
  (Validate params42 = None /\ ParametrizedVerifiers (g world0) !! params42 = None) /\
  GetKzgVerifier params42 world0 = (Ret (Ok 0), world1) /\
  GetKzgVerifier params42 world1 = (Ret (Ok 0), world1) /\
  length (heap world1) = 1.
Proof.
  assert (Hv : Validate params42 = None) by reflexivity.
  assert (Hm : ParametrizedVerifiers (g world0) !! params42 = None) by reflexivity.
  split; [by split|].
  destruct (GetKzgVerifier_twice params42 world0 ks42 params42 Hv Hm)
    as (H1 & Hheap & _ & _ & H2); [reflexivity|reflexivity|].
  split; [exact H1|]. split; [exact H2|].
  fold world1 in Hheap. rewrite Hheap. reflexivity.
Defined.

Lemma frame8_0_passes :
  (PV_VerifyFrame 0 (Commitment commitments8) (frame8 0) 0 world1).1 = Ret None.
Proof. vm_compute. reflexivity. Qed.

Lemma passes_before_1 (f1 : Frame) (indices : list Z) :
  passes_before 0 (Commitment commitments8) [frame8 0; f1] (0%Z :: indices) world1 1.
Proof.
  intros j f Hj Hf. assert (j = 0) as -> by lia.
  change (Some (frame8 0) = Some f) in Hf. injection Hf as <-.
  exists 0%Z. split; [reflexivity|exact frame8_0_passes].
Qed.

Lemma fails_at_0 :
  fails_first_at 0 (Commitment commitments8) [corrupt (frame8 0); frame8 1]
    [0; 1]%Z world1 0 proof_fails.
Proof.
  split.
  - intros j f Hj. lia.
  - exists (corrupt (frame8 0)), 0%Z. split; [reflexivity|]. split; [reflexivity|].
    vm_compute. reflexivity.
Qed.

Lemma fails_at_1 :
  fails_first_at 0 (Commitment commitments8) [frame8 0; corrupt (frame8 1)]
    [0; 1]%Z world1 1 proof_fails.
Proof.
  split; [apply passes_before_1|].
  exists (corrupt (frame8 1)), 1%Z. split; [reflexivity|]. split; [reflexivity|].
  vm_compute. reflexivity.
Qed.

(** C3, as stated, fails: a corrupted chunk at position 0 and a corrupted
    chunk at position 1 make [VerifyFrames] return the same error, so no
    reading of the error tells the position. *)
Lemma VerifyFrames_error_hides_chunk :
  ~ error_identifies_chunk (B := bls) (C := collaborators).
Proof.
  intros [which H].
  destruct (H _ _ commitments8 params42 world0 0 world1 0 proof_fails
              GetKzgVerifier_world0 fails_at_0) as (e0 & He0 & Hw0).
  destruct (H _ _ commitments8 params42 world0 0 world1 1 proof_fails
              GetKzgVerifier_world0 fails_at_1) as (e1 & He1 & Hw1).
  assert (H0 : (VerifyFrames [corrupt (frame8 0); frame8 1] [0; 1]%Z commitments8
                  params42 world0).1 = Ret (Some proof_fails)) by (vm_compute; reflexivity).
  assert (H1 : (VerifyFrames [frame8 0; corrupt (frame8 1)] [0; 1]%Z commitments8
                  params42 world0).1 = Ret (Some proof_fails)) by (vm_compute; reflexivity).
  rewrite H0 in He0. rewrite H1 in He1. clear H H0 H1.
  injection He0 as <-. injection He1 as <-. congruence.
Qed.

Lemma VerifyFrames_first_failure_witness :
  GetKzgVerifier params42 world0 = (Ret (Ok 0), world1) /\
  fails_first_at 0 (Commitment commitments8) [frame8 0; corrupt (frame8 1)]
    [0; 1]%Z world1 1 proof_fails /\
  VerifyFrames [frame8 0; corrupt (frame8 1)] [0; 1]%Z commitments8 params42 world0 =
  (Ret (Some proof_fails), world1).
Proof.
  split; [exact GetKzgVerifier_world0|]. split; [exact fails_at_1|].
  destruct (VerifyFrames_first_failure [frame8 0; corrupt (frame8 1)] [0; 1]%Z
              commitments8 params42 world0) as [_ Hok].
  destruct (Hok 0 world1 GetKzgVerifier_world0) as [Hfail _].
  exact (proj1 (Hfail 1 proof_fails fails_at_1)).
Defined.

(** C9, as stated, fails: with two frames and one index the first chunk can
    fail its check, and the call returns that error without a panic. *)
Lemma VerifyFrames_short_indices_error :
  ~ short_indices_always_panic (B := bls) (C := collaborators).
Proof.
  intros H.
  destruct (H [corrupt (frame8 0); frame8 1] [0%Z] commitments8 params42 world0)
    as (i & len & Hp); [change (1 < 2); lia|].
  assert (Hr : (VerifyFrames [corrupt (frame8 0); frame8 1] [0%Z] commitments8
                  params42 world0).1 = Ret (Some proof_fails)) by (vm_compute; reflexivity).
  rewrite Hr in Hp. clear Hr H. discriminate Hp.
Qed.

Lemma VerifyFrames_indices_bounds_witness :
  length [0%Z] < length [frame8 0; frame8 1] /\
  (VerifyFrames [frame8 0; frame8 1] [0%Z] commitments8 params42 world0).1 =
  Panic (IndexOutOfRange at_indices 1 1).
Proof.
  assert (Hlen : length [0%Z] < length [frame8 0; frame8 1]) by (change (1 < 2); lia).
  split; [exact Hlen|].
  destruct (VerifyFrames_indices_bounds [frame8 0; frame8 1] [0%Z] commitments8
              params42 world0) as [_ Hshort].
  apply (Hshort Hlen 1%Z 1).
  split; [reflexivity|]. split; [reflexivity|].
  exists 0, world1. split; [exact GetKzgVerifier_world0|apply passes_before_1].
Defined.

Lemma Decode_uses_coefficients_only_witness :
  (map Coeffs [frame3'; frame8 1] = map Coeffs [frame3; frame8 1] /\ reachable world0) /\
  Decode [frame3'; frame8 1] [0; 1]%Z params42 3 world0 =
  Decode [frame3; frame8 1] [0; 1]%Z params42 3 world0 /\
  exists pv, heap world1 !! 0 = Some pv /\
             NewEncoder params42 (Verbose (v_KzgConfig (g world0))) = Ok (pv_Encoder pv).
Proof.
  assert (Hc : map Coeffs [frame3'; frame8 1] = map Coeffs [frame3; frame8 1])
    by (cbn [map]; reflexivity).
  split; [split; [exact Hc|exact reachable_world0]|].
  destruct (Decode_uses_coefficients_only [frame3; frame8 1] [0; 1]%Z params42 3 world0)
    as (_ & _ & Hsame & Hbound).
  split; [exact (Hsame _ Hc)|].
  exact (Hbound reachable_world0 0 world1 GetKzgVerifier_world0).
Defined.

Lemma cache_only_holds_built_verifiers_witness :
  reachable world1 /\
  ParametrizedVerifiers (g world1) !! params42 = Some 0 /\
  cache_inv world1.
Proof.
  split; [exact reachable_world1|]. split; [reflexivity|].
  destruct (cache_only_holds_built_verifiers (B := bls) (C := collaborators))
    as (_ & _ & Hinv).
  exact (Hinv world1 reachable_world1).
Defined.

(** * Further properties of the code *)

Section Construction.
Context {B : BlsPrimitives} {C : Collaborators B}.

(** X1: [NewVerifier] refuses a configuration that asks to load more points
    than the SRS order before it reads anything; a verifier it returns
    holds the configuration as given, an empty cache and an SRS made from
    the points read, with the G2 points and the trailing section read only
    when [loadG2Points] is set and a path of the needed kind is present. *)
Theorem NewVerifier_checks (config : KzgConfig) (loadG2Points : bool) :
  ((SRSNumberToLoad config > SRSOrder config)%Z ->
   NewVerifier config loadG2Points = Err "SRSOrder is less than srsNumberToLoad") /\
  (forall v, NewVerifier config loadG2Points = Ok v ->
     (SRSNumberToLoad config <= SRSOrder config)%Z /\
     v_KzgConfig v = config /\
     LoadG2Points v = loadG2Points /\
     ParametrizedVerifiers v = ∅ /\
     exists s1 s2,
       ReadG1Points (G1Path config) (SRSNumberToLoad config) (NumWorker config) = Ok s1 /\
       NewSrs s1 s2 = Ok (Srs v) /\
       if loadG2Points
       then String.length (G2Path config) <> 0 /\
            ReadG2Points (G2Path config) (SRSNumberToLoad config) (NumWorker config) = Ok s2 /\
            ReadG2PointSection (G2Path config)
              (uint64_sub (SRSOrder config) (SRSNumberToLoad config))
              (SRSOrder config) (NumWorker config) = Ok (G2Trailing v)
       else String.length (G2PowerOf2Path config) <> 0 /\ s2 = [] /\ G2Trailing v = []).
Proof.
  split.
  - intros Hgt. unfold NewVerifier. by rewrite decide_True.
  - intros v. unfold NewVerifier.
    destruct (decide (SRSNumberToLoad config > SRSOrder config)%Z) as [|Hle]; [discriminate|].
    destruct (ReadG1Points _ _ _) as [s1|err]; [|discriminate].
    destruct loadG2Points.
    + destruct (decide (String.length (G2Path config) = 0)) as [|Hpath]; [discriminate|].
      destruct (ReadG2Points _ _ _) as [s2|err]; [|discriminate].
      destruct (ReadG2PointSection _ _ _ _) as [g2Trailing|err]; [|discriminate].
      destruct (NewSrs s1 s2) as [srs|err] eqn:Hsrs; [|discriminate].
      intros [= <-]. simpl. split; [lia|]. do 3 (split; [reflexivity|]).
      exists s1, s2. by rewrite Hsrs.
    + destruct (decide (String.length (G2PowerOf2Path config) = 0)) as [|Hpath]; [discriminate|].
      destruct (NewSrs s1 []) as [srs|err] eqn:Hsrs; [|discriminate].
      intros [= <-]. simpl. split; [lia|]. do 3 (split; [reflexivity|]).
      exists s1, []. by rewrite Hsrs.
Qed.

End Construction.

Lemma NewVerifier_checks_witness :
  NewVerifier config true = Ok (g world0) /\
  (SRSNumberToLoad config <= SRSOrder config)%Z /\
  ParametrizedVerifiers (g world0) = ∅.
Proof.
  split; [exact NewVerifier_world0|].
  destruct (NewVerifier_checks config true) as [_ Hok].
  destruct (Hok (g world0) NewVerifier_world0) as (Hle & _ & _ & Hc & _).
  split; [exact Hle|exact Hc].
Defined.

Section LengthAboveOrder.
Context {B : BlsPrimitives} {C : Collaborators B}.

(** X2: [VerifyCommit] does not compare the claimed length with the SRS
    order.  For a length above the order the uint64 subtraction wraps, the
    challenge is read at index [2^64 + SRSOrder - length], and the call
    fails or passes with that read and the pairing check;
    [VerifyBlobLength] is [VerifyCommit] on the fields of the commitments. *)
Theorem VerifyCommit_length_above_order (lengthCommit lowDegreeProof : G2Point)
    (length : Z) (w : World) :
  let cfg := v_KzgConfig (g w) in
  (0 <= SRSOrder cfg)%Z ->
  (SRSOrder cfg < length < 2 ^ 64)%Z ->
  uint64_sub (SRSOrder cfg) length = (2 ^ 64 + SRSOrder cfg - length)%Z /\
  (SRSOrder cfg < uint64_sub (SRSOrder cfg) length)%Z /\
  VerifyCommit lengthCommit lowDegreeProof length w =
    match ReadG1Point (2 ^ 64 + SRSOrder cfg - length)%Z cfg with
    | Err err => (Ret (Some err), w)
    | Ok g1Challenge =>
      (Ret (if bool_decide (pairing g1Challenge lengthCommit = pairing GenG1 lowDegreeProof)
            then None else Some "low degree proof fails"%string), w)
    end /\
  forall commitments,
    LengthCommitment commitments = lengthCommit ->
    LengthProof commitments = lowDegreeProof ->
    Length commitments = length ->
    VerifyBlobLength commitments w = VerifyCommit lengthCommit lowDegreeProof length w.
Proof.
  intros cfg Hord Hlen.
  assert (Hidx : uint64_sub (SRSOrder cfg) length = (2 ^ 64 + SRSOrder cfg - length)%Z).
  { unfold uint64_sub, uint64_wrap.
    replace (SRSOrder cfg - length)%Z with ((2 ^ 64 + SRSOrder cfg - length) + -1 * 2 ^ 64)%Z
      by lia.
    rewrite Z.mod_add by lia. apply Z.mod_small. lia. }
  split; [exact Hidx|]. split; [rewrite Hidx; lia|]. split.
  - rewrite VerifyCommit_unfold. fold cfg. by rewrite Hidx.
  - intros commitments <- <- Hl. unfold VerifyBlobLength. rewrite Hl.
    by rewrite uint64_wrap_small by lia.
Qed.

End LengthAboveOrder.

Lemma VerifyCommit_length_above_order_witness :
  ((0 <= SRSOrder (v_KzgConfig (g world0)))%Z /\
   (SRSOrder (v_KzgConfig (g world0)) < 17 < 2 ^ 64)%Z) /\
  uint64_sub (SRSOrder (v_KzgConfig (g world0))) 17 = 18446744073709551615%Z /\
  VerifyCommit (LengthCommitment commitments16) (LengthProof commitments16) 17 world0 =
  (Ret (Some "requested power is larger than SRSOrder"%string), world0).
Proof.
  assert (Hord : (0 <= SRSOrder (v_KzgConfig (g world0)))%Z).
  { change (SRSOrder (v_KzgConfig (g world0))) with 16%Z. lia. }
  assert (Hlen : (SRSOrder (v_KzgConfig (g world0)) < 17 < 2 ^ 64)%Z).
  { change (SRSOrder (v_KzgConfig (g world0))) with 16%Z. lia. }
  split; [by split|].
  destruct (VerifyCommit_length_above_order (LengthCommitment commitments16)
              (LengthProof commitments16) 17 world0 Hord Hlen) as (Hidx & _ & Hrun & _).
  split; [rewrite Hidx; reflexivity|].
  rewrite Hrun. reflexivity.
Defined.

Section WorldChanges.
Context {B : BlsPrimitives} {C : Collaborators B}.

(** The three ways a call of the cached getter can end. *)
Lemma GetKzgVerifier_cases (params : EncodingParams) (w : World) :
  (exists err, GetKzgVerifier params w = (Ret (Err err), w)) \/
  (exists ver, Validate params = None /\
     ParametrizedVerifiers (g w) !! params = Some ver /\
     GetKzgVerifier params w = (Ret (Ok ver), w)) \/
  (exists pv, Validate params = None /\
     ParametrizedVerifiers (g w) !! params = None /\
     built_from (g w) params pv /\
     GetKzgVerifier params w =
     (Ret (Ok (length (heap w))),
      {| g := {| v_KzgConfig := v_KzgConfig (g w);
                 Srs := Srs (g w);
                 G2Trailing := G2Trailing (g w);
                 LoadG2Points := LoadG2Points (g w);
                 ParametrizedVerifiers :=
                   <[params := length (heap w)]> (ParametrizedVerifiers (g w)) |};
         heap := heap w ++ [pv] |})).
Proof.
  destruct (Validate params) as [err|] eqn:Hv.
  { left. exists err. by apply GetKzgVerifier_invalid. }
  destruct (ParametrizedVerifiers (g w) !! params) as [ver|] eqn:Hc.
  { right. left. exists ver. split; [done|]. split; [done|]. by apply GetKzgVerifier_hit. }
  rewrite (GetKzgVerifier_miss params w Hv Hc).
  destruct (newKzgVerifier_cases params w) as [[err ->]|(pv & _ & Hb & ->)].
  { left. by exists err. }
  right. right. exists pv. done.
Qed.

(** A call leaves the world as it was, or allocates one verifier built for
    some valid params and possibly stores its address under those params. *)
Lemma after_cases (c : call) (w : World) :
  after c w = w \/
  exists params pv,
    Validate params = None /\ built_from (g w) params pv /\
    heap (after c w) = heap w ++ [pv] /\
    v_KzgConfig (g (after c w)) = v_KzgConfig (g w) /\
    Srs (g (after c w)) = Srs (g w) /\
    (ParametrizedVerifiers (g (after c w)) = ParametrizedVerifiers (g w) \/
     (ParametrizedVerifiers (g w) !! params = None /\
      ParametrizedVerifiers (g (after c w)) =
      <[params := length (heap w)]> (ParametrizedVerifiers (g w)))).
Proof.
  assert (Hget : forall params,
    (GetKzgVerifier params w).2 = w \/
    exists params' pv,
      Validate params' = None /\ built_from (g w) params' pv /\
      heap (GetKzgVerifier params w).2 = heap w ++ [pv] /\
      v_KzgConfig (g (GetKzgVerifier params w).2) = v_KzgConfig (g w) /\
      Srs (g (GetKzgVerifier params w).2) = Srs (g w) /\
      (ParametrizedVerifiers (g (GetKzgVerifier params w).2) = ParametrizedVerifiers (g w) \/
       (ParametrizedVerifiers (g w) !! params' = None /\
        ParametrizedVerifiers (g (GetKzgVerifier params w).2) =
        <[params' := length (heap w)]> (ParametrizedVerifiers (g w))))).
  { intros params.
    destruct (GetKzgVerifier_cases params w)
      as [[err ->]|[(ver & _ & _ & ->)|(pv & Hv & Hc & Hb & ->)]]; [by left|by left|].
    right. exists params, pv. simpl. repeat (split; [done|]). right. done. }
  destruct c; simpl.
  - apply Hget.
  - unfold NewKzgVerifier.
    destruct (newKzgVerifier_cases params w) as [[err ->]|(pv & Hv & Hb & ->)]; [by left|].
    right. exists params, pv. simpl. repeat (split; [done|]). by left.
  - left. unfold VerifyBlobLength. apply VerifyCommit_state.
  - left. apply VerifyCommit_state.
  - rewrite VerifyFrames_state. apply Hget.
  - left. apply PV_VerifyFrame_state.
  - rewrite Decode_state. apply Hget.
Qed.

Lemma run_calls_snoc (cs : list call) (c : call) (w : World) :
  run_calls (cs ++ [c]) w = after c (run_calls cs w).
Proof. unfold run_calls. by rewrite foldl_app. Qed.

(** X3: whatever calls follow, an entry of the cache keeps its address (no
    eviction, no overwrite), an allocated verifier stays what it is, and the
    configuration and the SRS of the verifier stay. *)
Theorem cache_entries_stable (cs : list call) (w : World) :
  (forall params ver,
     ParametrizedVerifiers (g w) !! params = Some ver ->
     ParametrizedVerifiers (g (run_calls cs w)) !! params = Some ver) /\
  (forall ver pv,
     heap w !! ver = Some pv -> heap (run_calls cs w) !! ver = Some pv) /\
  v_KzgConfig (g (run_calls cs w)) = v_KzgConfig (g w) /\
  Srs (g (run_calls cs w)) = Srs (g w).
Proof.
  induction cs as [|c cs IH] using rev_ind; [done|].
  rewrite run_calls_snoc.
  destruct IH as (IHc & IHh & IHk & IHs).
  destruct (after_step c (run_calls cs w)) as (Hk & Hs & [ext Hh] & Hcache).
  split; [|split; [|split]].
  - intros params ver Hl. apply IHc in Hl.
    destruct Hcache as [->|(params' & ver' & pv' & _ & Hnone & _ & _ & ->)]; [done|].
    rewrite lookup_insert_ne; [done|]. intros ->. congruence.
  - intros ver pv Hl. apply IHh in Hl. rewrite Hh. by apply lookup_app_l_Some.
  - congruence.
  - congruence.
Qed.

Lemma cache_injective_step (c : call) (w : World) :
  cache_injective w -> cache_injective (after c w).
Proof.
  intros [Hinj Hbound].
  destruct (after_cases c w)
    as [->|(params & pv & _ & _ & Hheap & _ & _ & Hcache)]; [done|].
  assert (Hlen : length (heap (after c w)) = Datatypes.S (length (heap w))).
  { rewrite Hheap, length_app. simpl. lia. }
  destruct Hcache as [Heq|[Hnone Heq]]; unfold cache_injective; rewrite Heq.
  - split; [exact Hinj|]. intros p ver Hl. apply Hbound in Hl. lia.
  - split.
    + intros p q ver Hp Hq.
      destruct (decide (p = q)) as [|Hpq]; [done|exfalso].
      destruct (decide (params = p)) as [Hep|Hnp].
      * subst p. rewrite lookup_insert_eq in Hp. rewrite lookup_insert_ne in Hq by done.
        injection Hp as <-. apply Hbound in Hq. lia.
      * rewrite lookup_insert_ne in Hp by done.
        destruct (decide (params = q)) as [Heq'|Hnq].
        -- subst q. rewrite lookup_insert_eq in Hq. injection Hq as <-.
           apply Hbound in Hp. lia.
        -- rewrite lookup_insert_ne in Hq by done. by apply Hpq, (Hinj p q ver).
    + intros p ver Hl. destruct (decide (params = p)) as [->|Hnp].
      * rewrite lookup_insert_eq in Hl. injection Hl as <-. lia.
      * rewrite lookup_insert_ne in Hl by done. apply Hbound in Hl. lia.
Qed.

(** X4: in every world reached from [NewVerifier], distinct params of the
    cache hold distinct verifiers, and every cached address is allocated. *)
Theorem cache_injective_reachable (w : World) : reachable w -> cache_injective w.
Proof.
  induction 1 as [config loadG2Points v Hnew|c w Hr IH].
  - split; intros *; simpl; rewrite (NewVerifier_cache_empty _ _ _ Hnew), lookup_empty;
      discriminate.
  - by apply cache_injective_step.
Qed.

(** X5: in every world reached from [NewVerifier], each allocated verifier,
    cached or not, holds the configuration and the SRS of the [Verifier]
    that built it. *)
Theorem shares_config_reachable (w : World) : reachable w -> shares_config w.
Proof.
  induction 1 as [config loadG2Points v Hnew|c w Hr IH].
  - intros ver pv Hl. simpl in Hl. by rewrite lookup_nil in Hl.
  - destruct (after_cases c w)
      as [->|(params & pv' & _ & Hb & Hheap & Hk & Hs & _)]; [done|].
    intros ver pv Hl. rewrite Hheap in Hl. rewrite Hk, Hs.
    apply lookup_app_Some in Hl as [Hl|[_ Hl]]; [by apply IH in Hl|].
    apply list_lookup_singleton_Some in Hl as [_ <-].
    destruct Hb as (ks & encoder & _ & _ & ->). done.
Qed.

End WorldChanges.

Lemma cache_entries_stable_witness :
  ParametrizedVerifiers (g world1) !! params42 = Some 0 /\
  ParametrizedVerifiers
    (g (run_calls [CallNewKzgVerifier params42; CallGetKzgVerifier params32] world1))
    !! params42 = Some 0.
Proof.
  assert (Hl : ParametrizedVerifiers (g world1) !! params42 = Some 0) by reflexivity.
  split; [exact Hl|].
  destruct (cache_entries_stable
              [CallNewKzgVerifier params42; CallGetKzgVerifier params32] world1)
    as (Hstable & _).
  exact (Hstable params42 0 Hl).
Defined.

Lemma cache_injective_reachable_witness :
  reachable world1 /\ cache_injective world1.
Proof.
  split; [exact reachable_world1|].
  exact (cache_injective_reachable world1 reachable_world1).
Defined.

Lemma shares_config_reachable_witness :
  reachable world1 /\ shares_config world1.
Proof.
  split; [exact reachable_world1|].
  exact (shares_config_reachable world1 reachable_world1).
Defined.

Section Bypass.
Context {B : BlsPrimitives} {C : Collaborators B}.

(** X6: [NewKzgVerifier] never reads or writes the cache.  A verifier it
    returns sits at a fresh address, so in a reachable world it is not the
    cached one even when [params] is cached, and a second call returns yet
    another address. *)
Theorem NewKzgVerifier_bypasses_cache (params : EncodingParams) (w : World) :
  ParametrizedVerifiers (g (NewKzgVerifier params w).2) = ParametrizedVerifiers (g w) /\
  forall ver w1,
    NewKzgVerifier params w = (Ret (Ok ver), w1) ->
    ver = length (heap w) /\
    heap w !! ver = None /\
    (exists pv, built_from (g w) params pv /\ heap w1 = heap w ++ [pv]) /\
    (reachable w -> forall cached,
       ParametrizedVerifiers (g w) !! params = Some cached -> cached <> ver) /\
    (NewKzgVerifier params w1).1 = Ret (Ok (Datatypes.S ver)).
Proof.
  unfold NewKzgVerifier.
  destruct (newKzgVerifier_cases params w) as [[err Hrun]|(pv & Hv & Hb & Hrun)];
    rewrite Hrun; simpl.
  { split; [reflexivity|]. intros ver w1 [=]. }
  split; [reflexivity|]. intros ver w1 [= <- <-].
  split; [reflexivity|]. split; [by apply lookup_ge_None_2|].
  split; [by exists pv|]. split.
  - intros Hr cached Hc.
    destruct (reachable_cache_inv w Hr params cached Hc) as (_ & pv' & Hpv' & _).
    apply lookup_lt_Some in Hpv'. lia.
  - destruct Hb as (ks & encoder & Hks & Henc & ->).
    match goal with
    | |- (newKzgVerifier params ?w1).1 = _ =>
        rewrite (newKzgVerifier_built params w1 ks encoder Hv Hks Henc)
    end.
    simpl. by rewrite length_app, Nat.add_1_r.
Qed.



End Bypass.

Lemma NewKzgVerifier_bypasses_cache_witness :
  (NewKzgVerifier params42 world1 = (Ret (Ok 1), (NewKzgVerifier params42 world1).2) /\
   reachable world1 /\
   ParametrizedVerifiers (g world1) !! params42 = Some 0) /\
  0 <> 1 /\
  (NewKzgVerifier params42 (NewKzgVerifier params42 world1).2).1 = Ret (Ok 2).
Proof.
  assert (Hrun : NewKzgVerifier params42 world1 =
                 (Ret (Ok 1), (NewKzgVerifier params42 world1).2)) by reflexivity.
  assert (Hc : ParametrizedVerifiers (g world1) !! params42 = Some 0) by reflexivity.
  split; [split; [exact Hrun|split; [exact reachable_world1|exact Hc]]|].
  destruct (NewKzgVerifier_bypasses_cache params42 world1) as [_ Hfresh].
  destruct (Hfresh 1 _ Hrun) as (_ & _ & _ & Hne & Hnext).
  split; [exact (Hne reachable_world1 0 Hc)|exact Hnext].
Defined.



Section BatchMore.
Context {B : BlsPrimitives} {C : Collaborators B}.

Lemma VerifyFrames_from_nil_inv (verifier : loc) (commit : G1Point) (indices : list Z)
    (w : World) (rest : list Frame) :
  forall ind,
    (VerifyFrames_from verifier commit indices ind rest w).1 = Ret None ->
    passes_from verifier commit indices ind rest w (length rest).
Proof.
  induction rest as [|f rest IH]; intros ind Hnil j f' Hj Hf'; [simpl in Hj; lia|].
  rewrite VerifyFrames_from_cons in Hnil.
  destruct (indices !! ind) as [idx|] eqn:Hi; [|discriminate].
  destruct (PV_VerifyFrame verifier commit f idx w).1 as [[e|]|p] eqn:Hone;
    [discriminate| |discriminate].
  destruct j as [|j].
  - simpl in Hf'. injection Hf' as <-. rewrite Nat.add_0_r. eauto.
  - rewrite Nat.add_succ_r. apply (IH (Datatypes.S ind) Hnil j f'); [simpl in Hj; lia|exact Hf'].
Qed.

(** X9: [VerifyFrames] returns no error exactly when the verifier of
    [params] is obtained and every frame, in its position, has an index and
    passes the check of the method with that index: no frame is skipped,
    and a nil result needs at least as many indices as frames. *)
Theorem VerifyFrames_nil_iff (frames : list Frame) (indices : list Z)
    (commitments : BlobCommitments) (params : EncodingParams) (w : World) :
  ((VerifyFrames frames indices commitments params w).1 = Ret None <->
   exists verifier w1,
     GetKzgVerifier params w = (Ret (Ok verifier), w1) /\
     passes_before verifier (Commitment commitments) frames indices w1 (length frames)) /\
  ((VerifyFrames frames indices commitments params w).1 = Ret None ->
   length frames <= length indices).
Proof.
  assert (Hfwd : (VerifyFrames frames indices commitments params w).1 = Ret None ->
    exists verifier w1,
      GetKzgVerifier params w = (Ret (Ok verifier), w1) /\
      passes_before verifier (Commitment commitments) frames indices w1 (length frames)).
  { rewrite VerifyFrames_unfold.
    destruct (GetKzgVerifier params w) as [[[verifier|err]|p] w1]; simpl;
      [|discriminate|discriminate].
    intros Hnil. exists verifier, w1. split; [reflexivity|].
    by apply VerifyFrames_from_nil_inv. }
  split; [split; [exact Hfwd|]|].
  - intros (verifier & w1 & Hg & Hp). rewrite VerifyFrames_unfold, Hg.
    by rewrite (VerifyFrames_from_pass verifier _ indices frames w1 Hp).
  - intros Hnil. destruct (Hfwd Hnil) as (verifier & w1 & _ & Hp).
    destruct frames as [|f0 frames'] eqn:Hfr; [simpl; lia|]. rewrite <- Hfr in *.
    assert (Hlast : is_Some (frames !! (length frames - 1))).
    { apply lookup_lt_is_Some_2. rewrite Hfr. simpl. lia. }
    destruct Hlast as [f Hf].
    destruct (Hp (length frames - 1) f) as (idx & Hi & _); [rewrite Hfr; simpl; lia|exact Hf|].
    simpl in Hi. apply lookup_lt_Some in Hi. lia.
Qed.

Lemma VerifyFrames_from_surplus (verifier : loc) (commit : G1Point)
    (indices extra : list Z) (w : World) (rest : list Frame) :
  forall ind,
    ind + length rest <= length indices ->
    VerifyFrames_from verifier commit (indices ++ extra) ind rest w =
    VerifyFrames_from verifier commit indices ind rest w.
Proof.
  induction rest as [|f rest IH]; intros ind Hlen; [reflexivity|].
  simpl in Hlen. rewrite !VerifyFrames_from_cons.
  rewrite lookup_app_l by lia.
  destruct (indices !! ind) as [i|] eqn:Hi.
  - rewrite IH by lia. reflexivity.
  - apply lookup_ge_None in Hi. lia.
Qed.

(** X10: [VerifyFrames] reads one index per frame and nothing beyond: with
    at least as many indices as frames, indices appended after them change
    neither the result nor the world. *)
Theorem VerifyFrames_surplus_indices (frames : list Frame) (indices extra : list Z)
    (commitments : BlobCommitments) (params : EncodingParams) (w : World) :
  length frames <= length indices ->
  VerifyFrames frames (indices ++ extra) commitments params w =
  VerifyFrames frames indices commitments params w.
Proof.
  intros Hlen. rewrite !VerifyFrames_unfold.
  destruct (GetKzgVerifier params w) as [[[verifier|err]|p] w1]; try reflexivity.
  apply VerifyFrames_from_surplus. simpl. lia.
Qed.

End BatchMore.

Section MethodCheck.
Context {B : BlsPrimitives} {C : Collaborators B} `{!BlsLaws B}.

(** X11: the method [VerifyFrame] returns no error exactly when the verifier
    is allocated and the check passes: the coset index and the G2 point at
    the coefficient count are obtained, the root of unity at that index
    exists, the SRS has a G1 point for each coefficient and the pairing
    equation holds.  An error of the coset index is returned before the G2
    point is read, and an error of that read before any pairing. *)
Theorem PV_VerifyFrame_accepts_iff (v : loc) (commit : G1Point) (f : Frame)
    (index : Z) (w : World) :
  ((PV_VerifyFrame v commit f index w).1 = Ret None <->
   exists pv, heap w !! v = Some pv /\ frame_accepted pv commit f index) /\
  (forall pv err,
     heap w !! v = Some pv ->
     GetLeadingCosetIndex (uint64_wrap index)
       (NumChunks (Encoder_EncodingParams (pv_Encoder pv))) = Err err ->
     (PV_VerifyFrame v commit f index w).1 = Ret (Some err)) /\
  (forall pv j err,
     heap w !! v = Some pv ->
     GetLeadingCosetIndex (uint64_wrap index)
       (NumChunks (Encoder_EncodingParams (pv_Encoder pv))) = Ok j ->
     ReadG2Point (uint64_of_len (Coeffs f)) (pv_KzgConfig pv) = Err err ->
     (PV_VerifyFrame v commit f index w).1 = Ret (Some err)).
Proof.
  split; [|split].
  - unfold PV_VerifyFrame, frame_accepted. run_M.
    destruct (heap w !! v) as [pv|] eqn:Hpv; simpl.
    2:{ split; [discriminate|]. by intros (pv & [=] & _). }
    destruct (GetLeadingCosetIndex (uint64_wrap index)
                (NumChunks (Encoder_EncodingParams (pv_Encoder pv)))) as [j|err] eqn:Hj;
      simpl.
    2:{ split; [discriminate|].
        intros (pv' & [= <-] & j & g2 & x & Hj' & _). congruence. }
    destruct (ReadG2Point (uint64_of_len (Coeffs f)) (pv_KzgConfig pv))
      as [g2Atn|err] eqn:Hg2; simpl.
    2:{ split; [discriminate|].
        intros (pv' & [= <-] & j' & g2 & x & _ & Hg2' & _). congruence. }
    unfold index_at.
    destruct (ExpandedRootsOfUnity (ks_FFTSettings (Ks pv)) !! Z.to_nat j)
      as [x|] eqn:Hx; simpl.
    2:{ split; [discriminate|].
        intros (pv' & [= <-] & j' & g2 & x & Hj' & _ & Hx' & _).
        rewrite Hj in Hj'. injection Hj' as <-. congruence. }
    destruct (decide (length (Coeffs f) <= length (G1 (ks_Srs (Ks pv))))) as [Hn|Hn].
    + rewrite (VerifyFrame_in_range f (Ks pv) commit x g2Atn Hn). simpl.
      destruct (bool_decide_reflect (frame_equation f (Ks pv) commit x g2Atn)) as [He|He];
        simpl.
      * split; [|done]. intros _. exists pv. split; [done|]. by exists j, g2Atn, x.
      * split; [discriminate|].
        intros (pv' & [= <-] & j' & g2 & x' & Hj' & Hg2' & Hx' & _ & He').
        rewrite Hj in Hj'. injection Hj' as <-.
        rewrite Hg2 in Hg2'. injection Hg2' as <-.
        rewrite Hx in Hx'. injection Hx' as <-. contradiction.
    + rewrite (VerifyFrame_out_of_range f (Ks pv) commit x g2Atn) by lia. simpl.
      split; [discriminate|].
      intros (pv' & [= <-] & j' & g2 & x' & _ & _ & _ & Hle & _). contradiction.
  - intros pv err Hpv Hj. unfold PV_VerifyFrame. run_M. by rewrite Hpv, Hj.
  - intros pv j err Hpv Hj Hg2. unfold PV_VerifyFrame. run_M. by rewrite Hpv, Hj, Hg2.
Qed.

End MethodCheck.

Section Oversized.
Context {B : BlsPrimitives} {C : Collaborators B}.

(** X12: the coefficient count of a frame is not checked against the G1
    points of the SRS.  When the coset index, the G2 point and the root of
    unity are obtained and the frame has more coefficients than the SRS has
    G1 points, the method panics at the slice instead of returning an
    error, and so does [VerifyFrames] when that frame is reached first. *)
Theorem oversized_frame_panics (v : loc) (commit : G1Point) (f : Frame) (index : Z)
    (w : World) (pv : ParametrizedVerifier) (j : Z) (g2Atn : G2Point) (x : Fr) :
  heap w !! v = Some pv ->
  GetLeadingCosetIndex (uint64_wrap index)
    (NumChunks (Encoder_EncodingParams (pv_Encoder pv))) = Ok j ->
  ReadG2Point (uint64_of_len (Coeffs f)) (pv_KzgConfig pv) = Ok g2Atn ->
  ExpandedRootsOfUnity (ks_FFTSettings (Ks pv)) !! Z.to_nat j = Some x ->
  length (G1 (ks_Srs (Ks pv))) < length (Coeffs f) ->
  let p := SliceBoundsOutOfRange at_Srs_G1 (length (Coeffs f))
             (length (G1 (ks_Srs (Ks pv)))) in
  PV_VerifyFrame v commit f index w = (Panic p, w) /\
  forall frames indices commitments params w0,
    GetKzgVerifier params w0 = (Ret (Ok v), w) ->
    Commitment commitments = commit ->
    VerifyFrames (f :: frames) (index :: indices) commitments params w0 = (Panic p, w).
Proof.
  intros Hpv Hj Hg2 Hx Hlen p.
  assert (Hone : PV_VerifyFrame v commit f index w = (Panic p, w)).
  { unfold PV_VerifyFrame. run_M. rewrite Hpv, Hj, Hg2. unfold index_at. rewrite Hx.
    simpl. unfold VerifyFrame, slice_to. rewrite decide_False by lia. reflexivity. }
  split; [exact Hone|].
  intros frames indices commitments params w0 Hg <-.
  rewrite VerifyFrames_unfold, Hg, VerifyFrames_from_cons. simpl. by rewrite Hone.
Qed.

End Oversized.

Section FreeFunction.
Context {B : BlsPrimitives}.

(** X13: the free function [VerifyFrame] reads of the settings only the
    first [n] G1 points of the SRS, [n] being the coefficient count: two
    settings that agree on them give the same result.  For a frame without
    coefficients the result depends neither on the settings nor on [x]. *)
Theorem VerifyFrame_reads_first_points (f : Frame) (ks ks' : KZGSettings)
    (commitment : G1Point) (x x' : Fr) (g2Atn : G2Point) :
  let n := length (Coeffs f) in
  (n <= length (G1 (ks_Srs ks)) ->
   n <= length (G1 (ks_Srs ks')) ->
   take n (G1 (ks_Srs ks)) = take n (G1 (ks_Srs ks')) ->
   VerifyFrame f ks commitment x g2Atn = VerifyFrame f ks' commitment x g2Atn) /\
  (n = 0 ->
   VerifyFrame f ks commitment x g2Atn = VerifyFrame f ks' commitment x' g2Atn /\
   VerifyFrame f ks commitment x g2Atn =
   Ret (PairingsVerify (SubG1 commitment (LinCombG1 [] [])) GenG2 (Proof f)
          (SubG2 g2Atn (MulG2 GenG2 ONE)))).
Proof.
  intros n. split.
  - intros Hn Hn' Htake. unfold VerifyFrame, slice_to. fold n.
    rewrite !decide_True by done. simpl. by rewrite Htake.
  - intros Hzero.
    assert (Hc : Coeffs f = []) by (by apply length_zero_iff_nil).
    assert (Hrun : forall k y, VerifyFrame f k commitment y g2Atn =
              Ret (PairingsVerify (SubG1 commitment (LinCombG1 [] [])) GenG2 (Proof f)
                     (SubG2 g2Atn (MulG2 GenG2 ONE)))).
    { intros k y. unfold VerifyFrame, slice_to. rewrite Hc.
      change (length (@nil Fr)) with 0.
      rewrite decide_True by lia. reflexivity. }
    split; [by rewrite !Hrun|apply Hrun].
Qed.

End FreeFunction.

Section Conversions.

(** X14: [toUint64Array] returns, for every list of chunk numbers, the list
    of the same length whose entries are converted one by one; chunk numbers
    within the uint64 range come back unchanged. *)
Theorem toUint64Array_spec (chunkIndices : list Z) :
  toUint64Array chunkIndices = map uint64_wrap chunkIndices /\
  length (toUint64Array chunkIndices) = length chunkIndices /\
  (forall i d, chunkIndices !! i = Some d ->
               toUint64Array chunkIndices !! i = Some (uint64_wrap d)) /\
  (Forall (fun d => 0 <= d < 2 ^ 64)%Z chunkIndices ->
   toUint64Array chunkIndices = chunkIndices).
Proof.
  rewrite toUint64Array_map. split; [reflexivity|].
  split; [apply length_map|]. split.
  - intros i d Hd. by rewrite list_lookup_fmap, Hd.
  - induction 1 as [|d l Hd _ IH]; [reflexivity|].
    simpl. by rewrite IH, uint64_wrap_small.
Qed.

End Conversions.

Lemma VerifyFrames_nil_iff_witness :
  (VerifyFrames [frame8 0; frame8 1] [0; 1]%Z commitments8 params42 world0).1 = Ret None /\
  length [frame8 0; frame8 1] <= length [0; 1]%Z /\
  exists verifier w1,
    GetKzgVerifier params42 world0 = (Ret (Ok verifier), w1) /\
    passes_before verifier (Commitment commitments8) [frame8 0; frame8 1] [0; 1]%Z w1 2.
Proof.
  assert (Hnil : (VerifyFrames [frame8 0; frame8 1] [0; 1]%Z commitments8 params42
                    world0).1 = Ret None) by (vm_compute; reflexivity).
  split; [exact Hnil|].
  destruct (VerifyFrames_nil_iff [frame8 0; frame8 1] [0; 1]%Z commitments8 params42 world0)
    as [[Hfwd _] Hlen].
  split; [exact (Hlen Hnil)|exact (Hfwd Hnil)].
Defined.

Lemma VerifyFrames_surplus_indices_witness :
  length [frame8 0] <= length [0%Z] /\
  VerifyFrames [frame8 0] ([0] ++ [7; 9])%Z commitments8 params42 world0 =
  VerifyFrames [frame8 0] [0%Z] commitments8 params42 world0.
Proof.
  assert (Hlen : length [frame8 0] <= length [0%Z]) by (change (1 <= 1); lia).
  split; [exact Hlen|].
  exact (VerifyFrames_surplus_indices [frame8 0] [0%Z] [7; 9]%Z commitments8 params42
           world0 Hlen).
Defined.

Lemma PV_VerifyFrame_accepts_iff_witness :
  BlsLaws bls /\
  (PV_VerifyFrame 0 (Commitment commitments8) (frame8 0) 0 world1).1 = Ret None /\
  exists pv, heap world1 !! 0 = Some pv /\
             frame_accepted pv (Commitment commitments8) (frame8 0) 0.
Proof.
  split; [exact bls_laws|]. split; [exact frame8_0_passes|].
  destruct (PV_VerifyFrame_accepts_iff (B := bls) 0 (Commitment commitments8) (frame8 0)
              0 world1) as [[Hfwd _] _].
  exact (Hfwd frame8_0_passes).
Defined.

Lemma oversized_frame_panics_witness :
  (heap world41 !! 0 = Some pv4 /\
   length (G1 (ks_Srs (Ks pv4))) < length (Coeffs frame5)) /\
  PV_VerifyFrame 0 (Commitment commitments8) frame5 0 world41 =
  (Panic (SliceBoundsOutOfRange at_Srs_G1 5 4), world41) /\
  VerifyFrames [frame5] [0%Z] commitments8 params42 world4 =
  (Panic (SliceBoundsOutOfRange at_Srs_G1 5 4), world41).
Proof.
  assert (Hpv : heap world41 !! 0 = Some pv4) by reflexivity.
  assert (Hlen : length (G1 (ks_Srs (Ks pv4))) < length (Coeffs frame5))
    by (change (4 < 5); lia).
  split; [by split|].
  destruct (oversized_frame_panics 0 (Commitment commitments8) frame5 0 world41 pv4
              0%Z (srs_power 5) 1%Z Hpv) as [Hone Hbatch];
    [reflexivity|reflexivity|reflexivity|exact Hlen|].
  split; [exact Hone|].
  exact (Hbatch [] [] commitments8 params42 world4 eq_refl eq_refl).
Defined.

Lemma VerifyFrame_reads_first_points_witness :
  length (Coeffs frame_empty) = 0 /\
  VerifyFrame frame_empty ks42 (Commitment commitments8) 1%Z (srs_power 0) =
  VerifyFrame frame_empty (Ks pv4) (Commitment commitments8) 5%Z (srs_power 0).
Proof.
  split; [reflexivity|].
  destruct (VerifyFrame_reads_first_points (B := bls) frame_empty ks42 (Ks pv4)
              (Commitment commitments8) 1%Z 5%Z (srs_power 0)) as [_ Hempty].
  exact (proj1 (Hempty eq_refl)).
Defined.

Lemma toUint64Array_spec_witness :
  Forall (fun d => 0 <= d < 2 ^ 64)%Z [0; 1; 2]%Z /\
  toUint64Array [0; 1; 2]%Z = [0; 1; 2]%Z.
Proof.
  assert (Hr : Forall (fun d => 0 <= d < 2 ^ 64)%Z [0; 1; 2]%Z)
    by (repeat constructor; lia).
  split; [exact Hr|].
  destruct (toUint64Array_spec [0; 1; 2]%Z) as (_ & _ & _ & Hid).
  exact (Hid Hr).
Defined.

Section Splitting.
Context {B : BlsPrimitives} {C : Collaborators B}.

Lemma GetKzgVerifier_again (params : EncodingParams) (w w1 : World) (verifier : loc) :
  GetKzgVerifier params w = (Ret (Ok verifier), w1) ->
  GetKzgVerifier params w1 = (Ret (Ok verifier), w1).
Proof.
  intros Hg.
  destruct (GetKzgVerifier_cases params w)
    as [[err Hrun]|[(ver & Hv & Hc & Hrun)|(pv & Hv & Hc & _ & Hrun)]];
    rewrite Hrun in Hg.
  - discriminate Hg.
  - injection Hg as <- <-. by apply GetKzgVerifier_hit.
  - injection Hg as <- <-. apply GetKzgVerifier_hit; [exact Hv|].
    simpl. apply lookup_insert_eq.
Qed.

Lemma passes_from_app (verifier : loc) (commit : G1Point) (is1 is2 : list Z)
    (fs1 fs2 : list Frame) (w : World) :
  length fs1 = length is1 ->
  passes_from verifier commit (is1 ++ is2) 0 (fs1 ++ fs2) w (length (fs1 ++ fs2)) <->
  passes_from verifier commit is1 0 fs1 w (length fs1) /\
  passes_from verifier commit is2 0 fs2 w (length fs2).
Proof.
  intros Hlen. unfold passes_from. simpl. split.
  - intros Hp. split.
    + intros j f Hj Hf.
      destruct (Hp j f) as (idx & Hi & Hr);
        [rewrite length_app; lia|by apply lookup_app_l_Some|].
      rewrite lookup_app_l in Hi by lia. eauto.
    + intros j f Hj Hf.
      destruct (Hp (length fs1 + j) f) as (idx & Hi & Hr).
      * rewrite length_app. lia.
      * rewrite lookup_app_r by lia. by rewrite Nat.add_comm, Nat.add_sub.
      * rewrite lookup_app_r in Hi by lia.
        rewrite <- Hlen, Nat.add_comm, Nat.add_sub in Hi. eauto.
  - intros [Hp1 Hp2] j f Hj Hf.
    destruct (decide (j < length fs1)) as [Hlt|Hge].
    + rewrite lookup_app_l in Hf by lia.
      destruct (Hp1 j f Hlt Hf) as (idx & Hi & Hr).
      exists idx. split; [by apply lookup_app_l_Some|exact Hr].
    + rewrite lookup_app_r in Hf by lia.
      destruct (Hp2 (j - length fs1) f) as (idx & Hi & Hr);
        [rewrite length_app in Hj; lia|exact Hf|].
      exists idx. split; [|exact Hr].
      rewrite lookup_app_r by lia. by rewrite <- Hlen.
Qed.

(** X15: a batch can be split.  With as many indices as frames in the first
    part, [VerifyFrames] on the concatenated frames and indices returns no
    error exactly when it does so on the first part and then, in the world
    the first call leaves, on the second part. *)
Theorem VerifyFrames_app (fs1 fs2 : list Frame) (is1 is2 : list Z)
    (commitments : BlobCommitments) (params : EncodingParams) (w : World) :
  length fs1 = length is1 ->
  let w1 := (VerifyFrames fs1 is1 commitments params w).2 in
  (VerifyFrames (fs1 ++ fs2) (is1 ++ is2) commitments params w).1 = Ret None <->
  (VerifyFrames fs1 is1 commitments params w).1 = Ret None /\
  (VerifyFrames fs2 is2 commitments params w1).1 = Ret None.
Proof.
  intros Hlen w1. unfold w1. rewrite VerifyFrames_state.
  rewrite !VerifyFrames_unfold.
  destruct (GetKzgVerifier params w) as [[[verifier|err]|p] w'] eqn:Hg; simpl.
  2:{ split; [discriminate|]. by intros [[=] _]. }
  2:{ split; [discriminate|]. by intros [[=] _]. }
  rewrite (GetKzgVerifier_again params w w' verifier Hg).
  split.
  - intros Hnil. apply VerifyFrames_from_nil_inv, passes_from_app in Hnil as [Hp1 Hp2];
      [|exact Hlen].
    by rewrite (VerifyFrames_from_pass verifier _ is1 fs1 w' Hp1),
               (VerifyFrames_from_pass verifier _ is2 fs2 w' Hp2).
  - intros [Hn1 Hn2].
    apply VerifyFrames_from_nil_inv in Hn1, Hn2.
    rewrite (VerifyFrames_from_pass verifier _ (is1 ++ is2) (fs1 ++ fs2) w'); [done|].
    by apply passes_from_app.
Qed.

(** X16: a call of the interface allocates at most one verifier and adds at
    most one entry to the cache, so after any sequence of calls the heap
    and the cache have grown by at most the number of calls. *)
Theorem allocation_bound (cs : list call) (w : World) :
  length (heap w) <= length (heap (run_calls cs w)) <= length (heap w) + length cs /\
  size (ParametrizedVerifiers (g (run_calls cs w))) <=
  size (ParametrizedVerifiers (g w)) + length cs.
Proof.
  induction cs as [|c cs IH] using rev_ind.
  { unfold run_calls. simpl. lia. }
  rewrite run_calls_snoc, length_app. simpl.
  destruct (after_cases c (run_calls cs w))
    as [->|(params & pv & _ & _ & Hheap & _ & _ & Hcache)]; [lia|].
  rewrite Hheap, length_app. simpl.
  destruct Hcache as [->|[Hnone ->]]; [lia|].
  rewrite map_size_insert_None by exact Hnone. lia.
Qed.

End Splitting.

Lemma VerifyFrames_app_witness :
  length [frame8 0] = length [0%Z] /\
  (VerifyFrames ([frame8 0] ++ [frame8 1]) ([0] ++ [1])%Z commitments8 params42
     world0).1 = Ret None /\
  (VerifyFrames [frame8 1] [1%Z] commitments8 params42
     (VerifyFrames [frame8 0] [0%Z] commitments8 params42 world0).2).1 = Ret None.
Proof.
  assert (Hlen : length [frame8 0] = length [0%Z]) by reflexivity.
  split; [exact Hlen|].
  assert (Hnil : (VerifyFrames ([frame8 0] ++ [frame8 1]) ([0] ++ [1])%Z commitments8
                    params42 world0).1 = Ret None) by (vm_compute; reflexivity).
  split; [exact Hnil|].
  destruct (VerifyFrames_app [frame8 0] [frame8 1] [0%Z] [1%Z] commitments8 params42
              world0 Hlen) as [Hsplit _].
  exact (proj2 (Hsplit Hnil)).
Defined.
